(** * chat-app: row-level security policies, the direct-messaging stored
    procedure and the client-side error and shape handling.

    The database half embeds [supabase/migrations/02_chat_rooms.sql] and
    [supabase/migrations/04_direct_messaging.sql], the policies of the
    other migrations as far as the rewriter looks at them, and the policies
    and the function of [supabase/reset_and_rebuild_fixed.sql]: tables are
    lists of records in heap order, SQL conditions are three-valued, a
    PL/pgSQL function is a computation in a state-and-exception monad, and
    a failed statement leaves the database as it was.  A statement of a
    client is first given to the rewriter, which attaches the row-security
    policies and raises when they refer to each other in a circle.

    The client half embeds [app/utils/error-handler.ts] and the validation
    loop of [fetchMessages] in the [ChatInterface] component over a small
    model of JavaScript values. *)

From stdpp Require Import base option list gmap strings pretty.

Set Default Proof Using "Type".
Set Warnings "-register-all".

(** ** SQL values and three-valued conditions *)

Module Sql.

(** A [UUID] is a 128-bit value; only equality is ever used on it. *)
Definition uuid := N.
(** [TIMESTAMP WITH TIME ZONE], microseconds since the epoch. *)
Definition timestamptz := Z.

(** SQL conditions evaluate to TRUE, FALSE or NULL (unknown). *)
Definition sqlbool := option bool.

Definition sql_and (a b : sqlbool) : sqlbool :=
  match a, b with
  | Some false, _ | _, Some false => Some false
  | Some true, Some true => Some true
  | _, _ => None
  end.

Definition sql_or (a b : sqlbool) : sqlbool :=
  match a, b with
  | Some true, _ | _, Some true => Some true
  | Some false, Some false => Some false
  | _, _ => None
  end.

(** [x = y]: NULL as soon as one side is NULL. *)
Definition sql_eq {A} `{EqDecision A} (x y : option A) : sqlbool :=
  match x, y with
  | Some a, Some b => Some (bool_decide (a = b))
  | _, _ => None
  end.

(** [x IN (subquery)]: TRUE when some row equals [x]; otherwise NULL when
    [x] or some row is NULL (and the subquery is not empty); otherwise
    FALSE. *)
Definition sql_in {A} `{EqDecision A} (x : option A) (rows : list (option A)) : sqlbool :=
  foldr (λ r acc, sql_or (sql_eq x r) acc) (Some false) rows.

(** WHERE, USING and WITH CHECK keep a row only when the condition is
    TRUE: NULL counts as FALSE. *)
Definition sql_is_true (c : sqlbool) : bool :=
  match c with Some true => true | _ => false end.

(** ** Schema *)

(** [public.rooms] ([is_private BOOLEAN DEFAULT false] is nullable). *)
Record room := mk_room {
  room_id : uuid;
  room_name : string;
  room_description : option string;
  room_created_by : uuid;
  room_is_private : option bool;
  room_created_at : timestamptz }.

(** [public.room_members] *)
Record room_member := mk_room_member {
  rm_id : uuid;
  rm_room_id : uuid;
  rm_user_id : uuid;
  rm_joined_at : timestamptz }.

(** [public.messages] after [ADD COLUMN room_id] (nullable). *)
Record message := mk_message {
  msg_id : uuid;
  msg_content : string;
  msg_user_id : uuid;
  msg_user_email : string;
  msg_room_id : option uuid;
  msg_created_at : timestamptz }.

(** [public.direct_conversations] *)
Record direct_conversation := mk_direct_conversation {
  dc_id : uuid;
  dc_created_at : timestamptz;
  dc_updated_at : timestamptz }.

(** [public.direct_participants] *)
Record direct_participant := mk_direct_participant {
  dp_id : uuid;
  dp_conversation_id : uuid;
  dp_user_id : uuid;
  dp_joined_at : timestamptz }.

(** [public.direct_messages] *)
Record direct_message := mk_direct_message {
  dm_id : uuid;
  dm_conversation_id : uuid;
  dm_sender_id : uuid;
  dm_content : string;
  dm_created_at : timestamptz }.

(** The database: [auth.users] reduced to its primary key, and the six
    tables of the two migrations. *)
Record db := mk_db {
  auth_users : list uuid;
  rooms : list room;
  room_members : list room_member;
  messages : list message;
  direct_conversations : list direct_conversation;
  direct_participants : list direct_participant;
  direct_messages : list direct_message }.

#[export] Instance room_eq_dec : EqDecision room.
Proof. solve_decision. Defined.
#[export] Instance room_member_eq_dec : EqDecision room_member.
Proof. solve_decision. Defined.
#[export] Instance message_eq_dec : EqDecision message.
Proof. solve_decision. Defined.
#[export] Instance direct_conversation_eq_dec : EqDecision direct_conversation.
Proof. solve_decision. Defined.
#[export] Instance direct_participant_eq_dec : EqDecision direct_participant.
Proof. solve_decision. Defined.
#[export] Instance direct_message_eq_dec : EqDecision direct_message.
Proof. solve_decision. Defined.

(** ** Statements that can raise *)

(** The SQLSTATE classes the statements below can raise. *)
Inductive sqlstate :=
  | unique_violation            (* 23505 *)
  | foreign_key_violation       (* 23503 *)
  | insufficient_privilege      (* 42501, row-level security *)
  | invalid_object_definition.  (* 42P17, infinite recursion detected in policy *)

#[export] Instance sqlstate_eq_dec : EqDecision sqlstate.
Proof. solve_decision. Defined.

(** A PL/pgSQL computation: reads and writes the database, and either
    raises or returns. *)
Definition plpgsql (A : Type) : Type := db → sqlstate + (A * db).

Definition pg_ret {A} (a : A) : plpgsql A := λ s, inr (a, s).
Definition pg_bind {A B} (m : plpgsql A) (k : A → plpgsql B) : plpgsql B :=
  λ s, match m s with
       | inl e => inl e
       | inr (a, s') => k a s'
       end.
Definition pg_query {A} (q : db → A) : plpgsql A := λ s, inr (q s, s).
Definition pg_update (f : db → db) : plpgsql unit := λ s, inr (tt, f s).
(** Raise [e] unless [ok] holds of the current database. *)
Definition pg_check (ok : db → bool) (e : sqlstate) : plpgsql unit :=
  λ s, if ok s then inr (tt, s) else inl e.

Notation "x ←$ m ; k" := (pg_bind m (λ x, k))
  (at level 20, m at level 100, k at level 200, right associativity,
   format "x  ←$  m ;  '/' k").
Notation "m ;;$ k" := (pg_bind m (λ _, k))
  (at level 100, k at level 200, right associativity).

(** A top-level statement is atomic: when it raises, everything it did is
    rolled back. *)
Definition execute {A} (m : plpgsql A) (s : db) : (sqlstate + A) * db :=
  match m s with
  | inl e => (inl e, s)
  | inr (a, s') => (inr a, s')
  end.

Fixpoint pg_for_each {A} (f : A → plpgsql unit) (rows : list A) : plpgsql unit :=
  match rows with
  | [] => pg_ret tt
  | r :: rows' => f r ;;$ pg_for_each f rows'
  end.

(** ** Table updates *)

Definition with_room_members (f : list room_member → list room_member) (s : db) : db :=
  mk_db (auth_users s) (rooms s) (f (room_members s)) (messages s)
        (direct_conversations s) (direct_participants s) (direct_messages s).

Definition with_messages (f : list message → list message) (s : db) : db :=
  mk_db (auth_users s) (rooms s) (room_members s) (f (messages s))
        (direct_conversations s) (direct_participants s) (direct_messages s).

Definition with_direct_conversations
    (f : list direct_conversation → list direct_conversation) (s : db) : db :=
  mk_db (auth_users s) (rooms s) (room_members s) (messages s)
        (f (direct_conversations s)) (direct_participants s) (direct_messages s).

Definition with_direct_participants
    (f : list direct_participant → list direct_participant) (s : db) : db :=
  mk_db (auth_users s) (rooms s) (room_members s) (messages s)
        (direct_conversations s) (f (direct_participants s)) (direct_messages s).

Definition with_direct_messages
    (f : list direct_message → list direct_message) (s : db) : db :=
  mk_db (auth_users s) (rooms s) (room_members s) (messages s)
        (direct_conversations s) (direct_participants s) (f (direct_messages s)).

(** ** Row security: the policies and the rewriter

    A statement that arrives through the API runs as role [anon] or
    [authenticated], and row security applies to it.  Before the statement
    runs, the rewriter attaches to each table it names the policies for the
    command, and then treats every subquery of these policies in the same
    way, with the table marked as being expanded.  A table whose policies
    hold a subquery and that is met again while it is being expanded makes
    the rewriter raise 42P17, "infinite recursion detected in policy for
    relation".  This is decided from the policies alone, before a row is
    read.  The functions of the migrations are SECURITY DEFINER: they run
    as the owner of the tables, to whom row security does not apply. *)

(** The tables that have row security enabled. *)
Inductive relation :=
  | Profiles
  | Rooms
  | Room_members
  | Messages
  | Message_reads
  | Typing_indicators
  | Direct_conversations
  | Direct_participants
  | Direct_messages.

Definition relations : list relation :=
  [ Profiles; Rooms; Room_members; Messages; Message_reads; Typing_indicators;
    Direct_conversations; Direct_participants; Direct_messages ].

(** The commands of the statements modelled here; INSERT is the plain
    one, without RETURNING. *)
Inductive command := Select | Insert.

#[export] Instance relation_eq_dec : EqDecision relation.
Proof. solve_decision. Defined.
#[export] Instance command_eq_dec : EqDecision command.
Proof. solve_decision. Defined.

(** A subquery as far as the rewriter looks at it: the tables of its FROM
    clause and the subqueries of its WHERE clause, or the two arms of a
    UNION. *)
Inductive query :=
  | From (tables : list relation) (sublinks : list query)
  | Union (arm1 arm2 : query).

(** [CREATE POLICY policy_name ON policy_table FOR policy_command], with
    the subqueries of its USING or WITH CHECK expression. *)
Record policy := mk_policy {
  policy_name : string;
  policy_table : relation;
  policy_command : command;
  policy_sublinks : list query }.

(** The policies FOR SELECT and FOR INSERT that are in place after
    [run_migrations.sql]: 01 to 04 in order.  The two policies of 01 on
    [messages] are dropped by 02.  [05_fix_recursive_policy.sql], which
    [run_migrations.sql] leaves commented out, creates the two policies
    FOR SELECT on [room_members] again as 02 has them. *)
Definition migrations : list policy :=
  [ mk_policy "Public profiles are viewable by everyone" Profiles Select [];
    mk_policy "Users can insert their own profile" Profiles Insert [];
    mk_policy "Public rooms are viewable by everyone" Rooms Select [];
    mk_policy "Private rooms are viewable only by members" Rooms Select
      [ From [Room_members] [] ];
    mk_policy "Users can view their own room memberships" Room_members Select [];
    mk_policy "Users can see other members in their rooms" Room_members Select
      [ From [Rooms; Room_members] [] ];
    mk_policy "Users can join rooms" Room_members Insert [];
    mk_policy "Users can view messages in their rooms" Messages Select
      [ Union (From [Rooms] []) (From [Room_members] []) ];
    mk_policy "Users can insert messages in their rooms" Messages Insert
      [ Union (From [Rooms] []) (From [Room_members] []) ];
    mk_policy "Message reads are viewable by room members" Message_reads Select
      [ From [Messages] [ From [Room_members] [] ] ];
    mk_policy "Users can insert their own message reads" Message_reads Insert
      [ From [Messages] [ From [Room_members] [] ] ];
    mk_policy "Typing indicators are viewable by room members" Typing_indicators Select
      [ From [Room_members] [] ];
    mk_policy "Users can update their own typing status" Typing_indicators Insert
      [ From [Room_members] [] ];
    mk_policy "Users can view conversations they are in" Direct_conversations Select
      [ From [Direct_participants] [] ];
    mk_policy "Users can view participants in their conversations" Direct_participants Select
      [ From [Direct_participants] [] ];
    mk_policy "Users can insert themselves as participants" Direct_participants Insert [];
    mk_policy "Users can view messages in their conversations" Direct_messages Select
      [ From [Direct_participants] [] ];
    mk_policy "Users can send messages to their conversations" Direct_messages Insert
      [ From [Direct_participants] [] ] ].

(** The policies FOR SELECT and FOR INSERT of
    [reset_and_rebuild_fixed.sql]. *)
Definition rebuilt : list policy :=
  [ mk_policy "Public profiles are viewable by everyone" Profiles Select [];
    mk_policy "Users can insert their own profile" Profiles Insert [];
    mk_policy "Public rooms are viewable by everyone" Rooms Select [];
    mk_policy "Users can view private rooms they are members of" Rooms Select
      [ From [Room_members] [] ];
    mk_policy "Users can insert rooms" Rooms Insert [];
    mk_policy "Users can view their own room memberships" Room_members Select [];
    mk_policy "Users can view members of public rooms" Room_members Select
      [ From [Rooms] [] ];
    mk_policy "Users can view members of their private rooms" Room_members Select
      [ From [Room_members] [] ];
    mk_policy "Users can join rooms" Room_members Insert [];
    mk_policy "Users can view messages in public rooms" Messages Select
      [ From [Rooms] [] ];
    mk_policy "Users can view messages in their private rooms" Messages Select
      [ From [Room_members] [] ];
    mk_policy "Users can send messages to their rooms" Messages Insert
      [ From [Rooms] []; From [Room_members] [] ];
    mk_policy "Users can view read receipts for public room messages" Message_reads Select
      [ From [Messages; Rooms] [] ];
    mk_policy "Users can view read receipts for their private room messages"
      Message_reads Select
      [ From [Messages; Room_members] [] ];
    mk_policy "Users can insert their own message reads" Message_reads Insert
      [ From [Messages; Room_members; Rooms] [] ];
    mk_policy "Users can see typing in public rooms" Typing_indicators Select
      [ From [Rooms] [] ];
    mk_policy "Users can see typing in their private rooms" Typing_indicators Select
      [ From [Room_members] [] ];
    mk_policy "Users can update their typing status" Typing_indicators Insert
      [ From [Rooms] []; From [Room_members] [] ];
    mk_policy "Users can view conversations they are in" Direct_conversations Select
      [ From [Direct_participants] [] ];
    mk_policy "Users can view participants in their conversations" Direct_participants Select
      [ From [Direct_participants] [] ];
    mk_policy "Users can insert themselves as participants" Direct_participants Insert [];
    mk_policy "Users can view messages in their conversations" Direct_messages Select
      [ From [Direct_participants] [] ];
    mk_policy "Users can send messages to their conversations" Direct_messages Insert
      [ From [Direct_participants] [] ] ].

(** The tables a subquery reads, itself and in the subqueries it holds. *)
Fixpoint range_tables (q : query) : list relation :=
  match q with
  | From tables sublinks => concat (range_tables <$> sublinks) ++ tables
  | Union arm1 arm2 => range_tables arm1 ++ range_tables arm2
  end.

(** The tables read by the subqueries of the policies that [schema] holds
    for command [c] on table [r]. *)
Definition sublink_tables (schema : list policy) (c : command) (r : relation)
    : list relation :=
  p ← filter (λ p, policy_table p = r ∧ policy_command p = c) schema;
  q ← policy_sublinks p;
  range_tables q.

(** Attaching to [r] the policies for [c] while the tables [activeRIRs] are
    being expanded: whether the rewriter detects infinite recursion.  A
    table without subqueries in its policies is never looked up among
    [activeRIRs]; the tables of a subquery get the policies FOR SELECT.
    [depth] bounds the nesting: [activeRIRs] never holds a table twice, so
    the number of tables is enough. *)
Fixpoint infinite_recursion
    (depth : nat) (schema : list policy) (activeRIRs : list relation)
    (c : command) (r : relation) : bool :=
  match sublink_tables schema c r with
  | [] => false
  | tables =>
    if decide (r ∈ activeRIRs) then true
    else match depth with
         | 0 => false
         | S depth' =>
           existsb (infinite_recursion depth' schema (r :: activeRIRs) Select) tables
         end
  end.

(** What the rewriter does with a statement of a client that runs [c] on
    [r], before anything is read or written. *)
Definition row_security (schema : list policy) (c : command) (r : relation)
    : plpgsql unit :=
  λ s, if infinite_recursion (length relations) schema [] c r
       then inl invalid_object_definition
       else inr (tt, s).

(** [SELECT * FROM r] by a client: once the rewriter is through, the rows
    of the table for which the disjunction [qual] of the policies FOR
    SELECT is TRUE.  The expressions embedded below read the stored rows in
    their subqueries, where row security has a subquery see what the
    caller may see of the tables it reads.  With the policies of this
    repository that difference never shows: a statement whose policies
    hold a subquery does not get past the rewriter. *)
Definition select_from {A} (schema : list policy) (r : relation)
    (table : db → list A) (qual : db → A → bool) : plpgsql (list A) :=
  row_security schema Select r ;;$
  pg_query (λ s, filter (λ x, qual s x) (table s)).

(** ** 02_chat_rooms.sql: policies on rooms and messages

    [auth_uid] is the value of [auth.uid()]: the caller's id, or NULL for
    an unauthenticated caller.  The expressions of the policies are
    embedded as the migrations write them; whether a statement gets as far
    as evaluating them is up to [row_security]. *)

(** [SELECT room_id FROM public.room_members WHERE user_id = auth.uid()] *)
Definition my_room_ids (auth_uid : option uuid) (s : db) : list (option uuid) :=
  (λ m, Some (rm_room_id m)) <$>
    filter (λ m, sql_is_true (sql_eq (Some (rm_user_id m)) auth_uid)) (room_members s).

(** [SELECT id FROM public.rooms WHERE is_private = false] *)
Definition public_room_ids (s : db) : list (option uuid) :=
  (λ r, Some (room_id r)) <$>
    filter (λ r, sql_is_true (sql_eq (room_is_private r) (Some false))) (rooms s).

(** "Public rooms are viewable by everyone": [USING (is_private = false)] *)
Definition public_rooms_viewable (auth_uid : option uuid) (s : db) (r : room) : sqlbool :=
  sql_eq (room_is_private r) (Some false).

(** "Private rooms are viewable only by members":
    [USING (is_private = false OR id IN (SELECT room_id ...))] *)
Definition private_rooms_viewable (auth_uid : option uuid) (s : db) (r : room) : sqlbool :=
  sql_or (sql_eq (room_is_private r) (Some false))
         (sql_in (Some (room_id r)) (my_room_ids auth_uid s)).

(** Both are permissive policies FOR SELECT on the same table: a row is
    returned when their disjunction is TRUE. *)
Definition rooms_select_policy (auth_uid : option uuid) (s : db) (r : room) : bool :=
  sql_is_true (sql_or (public_rooms_viewable auth_uid s r)
                      (private_rooms_viewable auth_uid s r)).

(** [SELECT * FROM public.rooms] by a client. *)
Definition select_rooms (auth_uid : option uuid) : plpgsql (list room) :=
  select_from migrations Rooms rooms (rooms_select_policy auth_uid).

(** [a UNION b]: the rows of both, without duplicates. *)
Definition sql_union {A} `{EqDecision A} (a b : list A) : list A :=
  remove_dups (a ++ b).

(** "Users can insert messages in their rooms":
    [WITH CHECK (auth.uid() = user_id AND (room_id IN (... UNION ...)))] *)
Definition messages_insert_policy (auth_uid : option uuid) (s : db) (new : message) : bool :=
  sql_is_true
    (sql_and (sql_eq auth_uid (Some (msg_user_id new)))
             (sql_in (msg_room_id new)
                     (sql_union (public_room_ids s) (my_room_ids auth_uid s)))).

(** [INSERT INTO public.messages] of one complete row by a client: the
    rewriter, then the row-level check, then the primary key, then the two
    foreign keys. *)
Definition insert_message (auth_uid : option uuid) (new : message) : plpgsql unit :=
  row_security migrations Insert Messages ;;$
  pg_check (λ s, messages_insert_policy auth_uid s new) insufficient_privilege ;;$
  pg_check (λ s, bool_decide (msg_id new ∉ msg_id <$> messages s)) unique_violation ;;$
  pg_update (with_messages (λ t, t ++ [new])) ;;$
  pg_check (λ s, bool_decide (msg_user_id new ∈ auth_users s)) foreign_key_violation ;;$
  pg_check (λ s, match msg_room_id new with
                 | None => true
                 | Some r => bool_decide (r ∈ room_id <$> rooms s)
                 end) foreign_key_violation.

(** ** 04_direct_messaging.sql: policies *)

(** [SELECT conversation_id FROM public.direct_participants
     WHERE user_id = auth.uid()] *)
Definition my_conversation_ids (auth_uid : option uuid) (s : db) : list (option uuid) :=
  (λ p, Some (dp_conversation_id p)) <$>
    filter (λ p, sql_is_true (sql_eq (Some (dp_user_id p)) auth_uid))
           (direct_participants s).

(** "Users can view conversations they are in" *)
Definition conversations_select_policy
    (auth_uid : option uuid) (s : db) (c : direct_conversation) : bool :=
  sql_is_true (sql_in (Some (dc_id c)) (my_conversation_ids auth_uid s)).

(** "Users can view participants in their conversations" *)
Definition participants_select_policy
    (auth_uid : option uuid) (s : db) (p : direct_participant) : bool :=
  sql_is_true (sql_in (Some (dp_conversation_id p)) (my_conversation_ids auth_uid s)).

(** "Users can view messages in their conversations" *)
Definition direct_messages_select_policy
    (auth_uid : option uuid) (s : db) (m : direct_message) : bool :=
  sql_is_true (sql_in (Some (dm_conversation_id m)) (my_conversation_ids auth_uid s)).

(** "Users can send messages to their conversations" *)
Definition direct_messages_insert_policy
    (auth_uid : option uuid) (s : db) (new : direct_message) : bool :=
  sql_is_true
    (sql_and (sql_eq (Some (dm_sender_id new)) auth_uid)
             (sql_in (Some (dm_conversation_id new)) (my_conversation_ids auth_uid s))).

(** [SELECT * FROM public.direct_conversations] by a client. *)
Definition select_direct_conversations (auth_uid : option uuid)
    : plpgsql (list direct_conversation) :=
  select_from migrations Direct_conversations direct_conversations
    (conversations_select_policy auth_uid).

(** [SELECT * FROM public.direct_participants] by a client. *)
Definition select_direct_participants (auth_uid : option uuid)
    : plpgsql (list direct_participant) :=
  select_from migrations Direct_participants direct_participants
    (participants_select_policy auth_uid).

(** [SELECT * FROM public.direct_messages] by a client. *)
Definition select_direct_messages (auth_uid : option uuid)
    : plpgsql (list direct_message) :=
  select_from migrations Direct_messages direct_messages
    (direct_messages_select_policy auth_uid).

(** ** 04_direct_messaging.sql: the trigger *)

(** [update_conversation_timestamp()], the body of trigger
    [on_message_sent]; [now] is the value of [NOW()].  The function is
    SECURITY DEFINER, so no policy filters its UPDATE. *)
Definition update_conversation_timestamp
    (new : direct_message) (now : timestamptz) (s : db) : db :=
  with_direct_conversations
    (fmap (λ c, if decide (dc_id c = dm_conversation_id new)
                then mk_direct_conversation (dc_id c) (dc_created_at c) now
                else c)) s.

(** Storing one complete row in [public.direct_messages]: the primary key,
    the row, the two foreign keys, and the AFTER INSERT ... FOR EACH ROW
    trigger. *)
Definition store_direct_message
    (new : direct_message) (now : timestamptz) : plpgsql unit :=
  pg_check (λ s, bool_decide (dm_id new ∉ dm_id <$> direct_messages s)) unique_violation ;;$
  pg_update (with_direct_messages (λ t, t ++ [new])) ;;$
  pg_check (λ s, bool_decide (dm_conversation_id new ∈ dc_id <$> direct_conversations s))
           foreign_key_violation ;;$
  pg_check (λ s, bool_decide (dm_sender_id new ∈ auth_users s)) foreign_key_violation ;;$
  pg_update (update_conversation_timestamp new now).

(** [INSERT INTO public.direct_messages] of one complete row by a client:
    the rewriter, the row-level check, then the row is stored. *)
Definition insert_direct_message
    (auth_uid : option uuid) (new : direct_message) (now : timestamptz) : plpgsql unit :=
  row_security migrations Insert Direct_messages ;;$
  pg_check (λ s, direct_messages_insert_policy auth_uid s new) insufficient_privilege ;;$
  store_direct_message new now.

(** ** 04_direct_messaging.sql: find_or_create_conversation *)

(** The participant rows of conversation [c]. *)
Definition participants_of (c : uuid) (s : db) : list direct_participant :=
  filter (λ p, dp_conversation_id p = c) (direct_participants s).

(** [SELECT COUNT( * ) FROM public.direct_participants WHERE conversation_id = c] *)
Definition participant_count (c : uuid) (s : db) : nat :=
  length (participants_of c s).

(** The rows of the lookup before [LIMIT 1]: conversations joined with a
    participant row of [user1_id] and one of [user2_id], kept where the
    conversation has two participant rows. *)
Definition existing_conversations (user1_id user2_id : uuid) (s : db) : list uuid :=
  c ← direct_conversations s;
  p1 ← filter (λ p1, dc_id c = dp_conversation_id p1 ∧ dp_user_id p1 = user1_id)
              (direct_participants s);
  p2 ← filter (λ p2, dc_id c = dp_conversation_id p2 ∧ dp_user_id p2 = user2_id)
              (direct_participants s);
  if decide (participant_count (dc_id c) s = 2) then [dc_id c] else [].

(** What one call takes from its environment: three [gen_random_uuid()]
    values and [now()] for the column defaults, and for the lookup, which
    has LIMIT 1 but no ORDER BY, which of its rows the executor produces
    first. *)
Record defaults := mk_defaults {
  new_conversation_uuid : uuid;
  participant1_uuid : uuid;
  participant2_uuid : uuid;
  now : timestamptz;
  first_row : nat }.

(** The same environment with another row coming first. *)
Definition with_first_row (n : nat) (d : defaults) : defaults :=
  mk_defaults (new_conversation_uuid d) (participant1_uuid d) (participant2_uuid d)
              (now d) n.

(** [INSERT INTO public.direct_conversations ... RETURNING id] *)
Definition insert_direct_conversation (c : direct_conversation) : plpgsql uuid :=
  pg_check (λ s, bool_decide (dc_id c ∉ dc_id <$> direct_conversations s))
           unique_violation ;;$
  pg_update (with_direct_conversations (λ t, t ++ [c])) ;;$
  pg_ret (dc_id c).

(** One row of [INSERT INTO public.direct_participants]: the primary key
    and [UNIQUE(conversation_id, user_id)] are checked as the row goes in. *)
Definition insert_direct_participant_row (p : direct_participant) : plpgsql unit :=
  pg_check (λ s, bool_decide (dp_id p ∉ dp_id <$> direct_participants s))
           unique_violation ;;$
  pg_check (λ s, bool_decide
                   ((dp_conversation_id p, dp_user_id p) ∉
                    (λ q, (dp_conversation_id q, dp_user_id q)) <$> direct_participants s))
           unique_violation ;;$
  pg_update (with_direct_participants (λ t, t ++ [p])).

(** The foreign keys of a participant row, checked at the end of the
    statement. *)
Definition check_direct_participant_fkeys (p : direct_participant) : plpgsql unit :=
  pg_check (λ s, bool_decide (dp_conversation_id p ∈ dc_id <$> direct_conversations s))
           foreign_key_violation ;;$
  pg_check (λ s, bool_decide (dp_user_id p ∈ auth_users s)) foreign_key_violation.

(** [INSERT INTO public.direct_participants ... VALUES (...), (...)] run by
    the SECURITY DEFINER function: no policy applies. *)
Definition insert_direct_participants (rows : list direct_participant) : plpgsql unit :=
  pg_for_each insert_direct_participant_row rows ;;$
  pg_for_each check_direct_participant_fkeys rows.

(** [SELECT ... INTO v ... LIMIT 1]: NULL when the query has no row,
    otherwise the row that comes first.  Without ORDER BY any row may
    come first: [first_row] ranges over them, [rows] being listed in heap
    order. *)
Definition select_into {A} (first_row : nat) (rows : list A) : option A :=
  rows !! (first_row `mod` length rows).

(** The second half of the function: "Otherwise, create a new
    conversation" and "Add both users as participants". *)
Definition create_conversation
    (user1_id user2_id : uuid) (d : defaults) : plpgsql uuid :=
  new_conversation_id ←$
    insert_direct_conversation
      (mk_direct_conversation (new_conversation_uuid d) (now d) (now d));
  insert_direct_participants
    [ mk_direct_participant (participant1_uuid d) new_conversation_id user1_id (now d);
      mk_direct_participant (participant2_uuid d) new_conversation_id user2_id (now d) ] ;;$
  pg_ret new_conversation_id.

Definition find_or_create_conversation
    (user1_id user2_id : uuid) (d : defaults) : plpgsql uuid :=
  existing_conversation_id ←$
    pg_query (λ s, select_into (first_row d)
                               (existing_conversations user1_id user2_id s));
  match existing_conversation_id with
  | Some c => pg_ret c
  | None => create_conversation user1_id user2_id d
  end.

(** The database after a call that created conversation
    [new_conversation_uuid d] for [user1_id] and [user2_id]. *)
Definition with_new_conversation
    (user1_id user2_id : uuid) (d : defaults) (s : db) : db :=
  with_direct_participants
    (λ t, t ++ [ mk_direct_participant (participant1_uuid d) (new_conversation_uuid d)
                                       user1_id (now d);
                 mk_direct_participant (participant2_uuid d) (new_conversation_uuid d)
                                       user2_id (now d) ])
    (with_direct_conversations
       (λ t, t ++ [ mk_direct_conversation (new_conversation_uuid d) (now d) (now d) ]) s).

(** *** Sequential and interleaved calls *)

Inductive call := Call (user1_id user2_id : uuid) (d : defaults).

(** Calls executed one after the other, each as its own statement. *)
Fixpoint execute_calls (calls : list call) (s : db) : list (sqlstate + uuid) * db :=
  match calls with
  | [] => ([], s)
  | Call user1_id user2_id d :: calls' =>
    let '(r, s1) := execute (find_or_create_conversation user1_id user2_id d) s in
    let '(rs, s2) := execute_calls calls' s1 in
    (r :: rs, s2)
  end.

(** A session running the function in its own transaction at the default
    isolation level (READ COMMITTED): each statement reads the rows
    committed when it starts, and the session's own inserts become visible
    to the others when it commits.  A session is either about to run the
    lookup, or has run it and holds [existing_conversation_id], or has
    returned. *)
Inductive session :=
  | Called (user1_id user2_id : uuid) (d : defaults)
  | Looked_up (user1_id user2_id : uuid) (d : defaults)
              (existing_conversation_id : option uuid)
  | Returned (r : sqlstate + uuid).

(** One step of one session against the committed database. *)
Definition session_step (t : session) (s : db) : session * db :=
  match t with
  | Called user1_id user2_id d =>
    (Looked_up user1_id user2_id d
       (select_into (first_row d) (existing_conversations user1_id user2_id s)), s)
  | Looked_up _ _ _ (Some c) => (Returned (inr c), s)
  | Looked_up user1_id user2_id d None =>
    let '(r, s') := execute (create_conversation user1_id user2_id d) s in
    (Returned r, s')
  | Returned r => (Returned r, s)
  end.

(** A schedule names, step by step, the session that moves next. *)
Fixpoint interleave (schedule : list nat) (sessions : list session) (s : db)
    : list session * db :=
  match schedule with
  | [] => (sessions, s)
  | i :: schedule' =>
    match sessions !! i with
    | None => interleave schedule' sessions s
    | Some t =>
      let '(t', s') := session_step t s in
      interleave schedule' (<[i := t']> sessions) s'
    end
  end.

(** Two sessions that look for the same pair of users at the same time. *)
Definition racing_sessions : list session :=
  [ Called 1%N 2%N (mk_defaults 100%N 101%N 102%N 5000%Z 0);
    Called 2%N 1%N (mk_defaults 200%N 201%N 202%N 5001%Z 0) ].

(** *** Vocabulary of the properties *)

(** A conversation whose participant rows are exactly two, one of [u1] and
    one of [u2]. *)
Definition pair_conversation (u1 u2 c : uuid) (s : db) : Prop :=
  c ∈ (dc_id <$> direct_conversations s) ∧
  ∃ p1 p2, participants_of c s ≡ₚ [p1; p2] ∧ dp_user_id p1 = u1 ∧ dp_user_id p2 = u2.

Definition at_most_one_pair_conversation (u1 u2 : uuid) (s : db) : Prop :=
  ∀ c c', pair_conversation u1 u2 c s → pair_conversation u1 u2 c' s → c = c'.

(** [u] has a participant row in conversation [c]. *)
Definition is_participant (u c : uuid) (s : db) : Prop :=
  ∃ p, p ∈ direct_participants s ∧ dp_user_id p = u ∧ dp_conversation_id p = c.

(** [u] has a [room_members] row for room [r]. *)
Definition has_membership (u r : uuid) (s : db) : Prop :=
  ∃ m, m ∈ room_members s ∧ rm_room_id m = r ∧ rm_user_id m = u.

(** The foreign key [direct_participants.conversation_id →
    direct_conversations.id] holds. *)
Definition participants_fkey (s : db) : Prop :=
  ∀ p, p ∈ direct_participants s →
       dp_conversation_id p ∈ (dc_id <$> direct_conversations s).

(** The generated identifiers are unused, as [gen_random_uuid()] gives
    them. *)
Definition fresh_defaults (d : defaults) (s : db) : Prop :=
  (new_conversation_uuid d ∉ dc_id <$> direct_conversations s) ∧
  (participant1_uuid d ∉ dp_id <$> direct_participants s) ∧
  (participant2_uuid d ∉ dp_id <$> direct_participants s) ∧
  participant1_uuid d ≠ participant2_uuid d.

(** A conversation all of whose participant rows are rows of [u]. *)
Definition self_conversation (u c : uuid) (s : db) : Prop :=
  c ∈ (dc_id <$> direct_conversations s) ∧
  participants_of c s ≠ [] ∧
  ∀ p, p ∈ participants_of c s → dp_user_id p = u.

(** The caller is authenticated and participates in conversation [c]. *)
Definition caller_participates (auth_uid : option uuid) (c : uuid) (s : db) : Prop :=
  ∃ u, auth_uid = Some u ∧ is_participant u c s.

(** ** Small examples *)

(** Users 1, 2 and 3; conversation 100 between 1 and 2 with one message,
    conversation 200 between 2 and 3 with one message; a public room 10, a
    private room 11 created by 1 with 2 as its only member. *)
Definition db_chat : db :=
  mk_db [1; 2; 3]%N
        [ mk_room 10%N "General" (Some "General chat room") 1%N (Some false) 1000%Z;
          mk_room 11%N "Staff" None 1%N (Some true) 1100%Z ]
        [ mk_room_member 20%N 11%N 2%N 1200%Z ]
        []
        [ mk_direct_conversation 100%N 2000%Z 2000%Z;
          mk_direct_conversation 200%N 2100%Z 2100%Z ]
        [ mk_direct_participant 101%N 100%N 1%N 2000%Z;
          mk_direct_participant 102%N 100%N 2%N 2000%Z;
          mk_direct_participant 201%N 200%N 2%N 2100%Z;
          mk_direct_participant 202%N 200%N 3%N 2100%Z ]
        [ mk_direct_message 300%N 100%N 1%N "hello" 2200%Z;
          mk_direct_message 301%N 200%N 3%N "secret" 2300%Z ].

(** Two users, 1 and 2, and nothing else. *)
Definition db_two_users : db := mk_db [1; 2]%N [] [] [] [] [] [].

Definition defaults_a : defaults := mk_defaults 100%N 101%N 102%N 5000%Z 0.
Definition defaults_b : defaults := mk_defaults 200%N 201%N 202%N 6000%Z 1.

(** Users 1 and 2 with two conversations of the two of them, 100 and 200:
    what [racing_sessions] leave behind when both look before either
    inserts. *)
Definition db_after_race : db :=
  mk_db [1; 2]%N [] [] []
        [ mk_direct_conversation 100%N 5000%Z 5000%Z;
          mk_direct_conversation 200%N 5001%Z 5001%Z ]
        [ mk_direct_participant 101%N 100%N 1%N 5000%Z;
          mk_direct_participant 102%N 100%N 2%N 5000%Z;
          mk_direct_participant 201%N 200%N 2%N 5001%Z;
          mk_direct_participant 202%N 200%N 1%N 5001%Z ]
        [].

(** ** 02_chat_rooms.sql: the remaining policies *)

(** "Users can view messages in their rooms":
    [USING (room_id IN (... UNION ...))] *)
Definition messages_select_policy (auth_uid : option uuid) (s : db) (m : message) : bool :=
  sql_is_true
    (sql_in (msg_room_id m) (sql_union (public_room_ids s) (my_room_ids auth_uid s))).

(** [SELECT * FROM public.messages] by a client. *)
Definition select_messages (auth_uid : option uuid) : plpgsql (list message) :=
  select_from migrations Messages messages (messages_select_policy auth_uid).

(** "Users can join rooms": [WITH CHECK (user_id = auth.uid())] *)
Definition room_members_insert_policy
    (auth_uid : option uuid) (s : db) (new : room_member) : bool :=
  sql_is_true (sql_eq (Some (rm_user_id new)) auth_uid).

(** [INSERT INTO public.room_members] of one complete row by a client:
    the row-level check, the primary key and [UNIQUE(room_id, user_id)] as
    the row goes in, the two foreign keys at the end. *)
Definition insert_room_member (auth_uid : option uuid) (new : room_member) : plpgsql unit :=
  row_security migrations Insert Room_members ;;$
  pg_check (λ s, room_members_insert_policy auth_uid s new) insufficient_privilege ;;$
  pg_check (λ s, bool_decide (rm_id new ∉ rm_id <$> room_members s)) unique_violation ;;$
  pg_check (λ s, bool_decide
                   ((rm_room_id new, rm_user_id new) ∉
                    (λ q, (rm_room_id q, rm_user_id q)) <$> room_members s))
           unique_violation ;;$
  pg_update (with_room_members (λ t, t ++ [new])) ;;$
  pg_check (λ s, bool_decide (rm_room_id new ∈ room_id <$> rooms s))
           foreign_key_violation ;;$
  pg_check (λ s, bool_decide (rm_user_id new ∈ auth_users s)) foreign_key_violation.

(** ** 04_direct_messaging.sql: joining a conversation *)

(** "Users can insert themselves as participants":
    [WITH CHECK (user_id = auth.uid())] *)
Definition participants_insert_policy
    (auth_uid : option uuid) (s : db) (new : direct_participant) : bool :=
  sql_is_true (sql_eq (Some (dp_user_id new)) auth_uid).

(** [INSERT INTO public.direct_participants] of one complete row by a
    client. *)
Definition insert_direct_participant
    (auth_uid : option uuid) (new : direct_participant) : plpgsql unit :=
  row_security migrations Insert Direct_participants ;;$
  pg_check (λ s, participants_insert_policy auth_uid s new) insufficient_privilege ;;$
  insert_direct_participant_row new ;;$
  check_direct_participant_fkeys new.

(** ** The constraints of the direct-messaging tables *)

(** Primary keys, [UNIQUE(conversation_id, user_id)] and the foreign keys
    of [direct_participants] and [direct_messages]. *)
Record direct_messaging_constraints (s : db) : Prop := mk_constraints {
  conversations_pkey : NoDup (dc_id <$> direct_conversations s);
  participants_pkey : NoDup (dp_id <$> direct_participants s);
  participants_unique :
    NoDup ((λ q, (dp_conversation_id q, dp_user_id q)) <$> direct_participants s);
  participants_conversation_fkey : participants_fkey s;
  participants_user_fkey :
    ∀ p, p ∈ direct_participants s → dp_user_id p ∈ auth_users s;
  direct_messages_pkey : NoDup (dm_id <$> direct_messages s);
  direct_messages_conversation_fkey :
    ∀ m, m ∈ direct_messages s →
         dm_conversation_id m ∈ (dc_id <$> direct_conversations s);
  direct_messages_sender_fkey :
    ∀ m, m ∈ direct_messages s → dm_sender_id m ∈ auth_users s }.

(** What a client can do to the direct-messaging tables. *)
Inductive operation :=
  | Find_or_create (user1_id user2_id : uuid) (d : defaults)
  | Join (auth_uid : option uuid) (new : direct_participant)
  | Send (auth_uid : option uuid) (new : direct_message) (now : timestamptz).

Definition run_operation (o : operation) (s : db) : db :=
  match o with
  | Find_or_create user1_id user2_id d =>
    (execute (find_or_create_conversation user1_id user2_id d) s).2
  | Join auth_uid new => (execute (insert_direct_participant auth_uid new) s).2
  | Send auth_uid new now => (execute (insert_direct_message auth_uid new now) s).2
  end.

Definition run_operations (ops : list operation) (s : db) : db :=
  foldl (λ s o, run_operation o s) s ops.

(** ** reset_and_rebuild_fixed.sql: the same policies and function, rewritten *)

(** [EXISTS (subquery)] *)
Definition sql_exists {A} (rows : list A) : sqlbool :=
  Some (match rows with [] => false | _ => true end).

(** [SELECT 1 FROM public.room_members
     WHERE room_members.room_id = r AND room_members.user_id = auth.uid()] *)
Definition my_memberships_in (auth_uid : option uuid) (r : option uuid) (s : db)
    : list room_member :=
  filter (λ rm, sql_is_true (sql_and (sql_eq (Some (rm_room_id rm)) r)
                                     (sql_eq (Some (rm_user_id rm)) auth_uid)))
         (room_members s).

(** [SELECT 1 FROM public.rooms
     WHERE rooms.id = r AND rooms.is_private = false] *)
Definition public_rooms_with_id (r : option uuid) (s : db) : list room :=
  filter (λ x, sql_is_true (sql_and (sql_eq (Some (room_id x)) r)
                                    (sql_eq (room_is_private x) (Some false))))
         (rooms s).

(** "Public rooms are viewable by everyone" and "Users can view private
    rooms they are members of". *)
Definition rebuilt_rooms_select_policy
    (auth_uid : option uuid) (s : db) (r : room) : bool :=
  sql_is_true
    (sql_or (sql_eq (room_is_private r) (Some false))
            (sql_exists (my_memberships_in auth_uid (Some (room_id r)) s))).

(** "Users can view messages in public rooms" and "Users can view
    messages in their private rooms". *)
Definition rebuilt_messages_select_policy
    (auth_uid : option uuid) (s : db) (m : message) : bool :=
  sql_is_true
    (sql_or (sql_exists (public_rooms_with_id (msg_room_id m) s))
            (sql_exists (my_memberships_in auth_uid (msg_room_id m) s))).

(** "Users can send messages to their rooms" *)
Definition rebuilt_messages_insert_policy
    (auth_uid : option uuid) (s : db) (new : message) : bool :=
  sql_is_true
    (sql_and (sql_eq auth_uid (Some (msg_user_id new)))
             (sql_or (sql_exists (public_rooms_with_id (msg_room_id new) s))
                     (sql_exists (my_memberships_in auth_uid (msg_room_id new) s)))).

(** The lookup of the rebuilt [find_or_create_conversation], before
    [LIMIT 1]: conversations for which a participant row of each user
    exists and that have two participant rows. *)
Definition rebuilt_existing_conversations (user1_id user2_id : uuid) (s : db) : list uuid :=
  dc_id <$>
    filter (λ c,
              sql_is_true
                (sql_and
                   (sql_and
                      (sql_exists
                         (filter (λ p1, dp_conversation_id p1 = dc_id c ∧
                                        dp_user_id p1 = user1_id)
                                 (direct_participants s)))
                      (sql_exists
                         (filter (λ p2, dp_conversation_id p2 = dc_id c ∧
                                        dp_user_id p2 = user2_id)
                                 (direct_participants s))))
                   (Some (bool_decide (participant_count (dc_id c) s = 2)))))
           (direct_conversations s).

Definition rebuilt_find_or_create_conversation
    (user1_id user2_id : uuid) (d : defaults) : plpgsql uuid :=
  existing_conversation_id ←$
    pg_query (λ s, select_into (first_row d)
                               (rebuilt_existing_conversations user1_id user2_id s));
  match existing_conversation_id with
  | Some c => pg_ret c
  | None => create_conversation user1_id user2_id d
  end.

End Sql.

(** * The client: JavaScript values, error messages, message validation *)

Module Js.

Local Open Scope string_scope.

(** JavaScript values as they arrive from JSON or from a [catch]: the
    primitives and objects with their properties ([props] holds every
    property that [in] finds).  Numbers are the integral ones that a
    double holds exactly, below 2^53 in absolute value. *)
Inductive value :=
  | Undefined
  | Null
  | Bool (b : bool)
  | Num (n : Z)
  | Str (s : string)
  | Obj (props : gmap string value).

(** [typeof v === 'object' && v !== null] *)
Definition is_object (v : value) : bool :=
  match v with Obj _ => true | _ => false end.

(** [typeof v === 'string'] *)
Definition is_string (v : value) : bool :=
  match v with Str _ => true | _ => false end.

(** ['k' in v], for [v] an object. *)
Definition has (k : string) (v : value) : bool :=
  match v with Obj props => bool_decide (is_Some (props !! k)) | _ => false end.

(** [v.k], for [v] other than [null] and [undefined]: a property that is
    not there reads as [undefined]. *)
Definition get (k : string) (v : value) : value :=
  match v with Obj props => default Undefined (props !! k) | _ => Undefined end.

(** Truthiness, as [||], [? :] and [if] test it. *)
Definition truthy (v : value) : bool :=
  match v with
  | Undefined | Null => false
  | Bool b => b
  | Num n => negb (n =? 0)%Z
  | Str s => negb (String.eqb s "")
  | Obj _ => true
  end.

(** [a || b] *)
Definition or_else (a b : value) : value := if truthy a then a else b.

(** [s.includes(sub)] *)
Fixpoint includes (s sub : string) : bool :=
  String.prefix sub s ||
  match s with
  | EmptyString => false
  | String _ s' => includes s' sub
  end.

(** [`${v}`]: the string a template literal splices in, for the numbers
    above and for objects that print as [Object.prototype.toString] prints
    them (an array or an [Error] prints otherwise and is not told apart
    from a plain object here).  The code splices in [message] and
    [username], which it has tested to be strings, and [details]. *)
Definition to_string (v : value) : string :=
  match v with
  | Undefined => "undefined"
  | Null => "null"
  | Bool true => "true"
  | Bool false => "false"
  | Num n => pretty n
  | Str s => s
  | Obj _ => "[object Object]"
  end.

(** ** app/utils/error-handler.ts *)

Definition unknown_error_message : string :=
  "An unknown error occurred. Please try again.".

(** [v === 'literal'] *)
Definition strict_eq (v : value) (literal : string) : bool :=
  match v with Str s => String.eqb s literal | _ => false end.

Definition handleDatabaseError (error : value) : string :=
  if is_object error then
    if has "code" error && has "message" error && is_string (get "message" error) then
      let message := to_string (get "message" error) in
      let code := get "code" error in
      if strict_eq code "42P01" then
        "The database table does not exist. Please run the SQL setup scripts."
      else if strict_eq code "23505" then
        "A record with this information already exists."
      else if strict_eq code "23503" then
        "This operation references a record that does not exist."
      else if strict_eq code "42501" then
        "You do not have permission to perform this operation."
      else if strict_eq code "28000" then
        "Authentication failed. Please log in again."
      else if strict_eq code "22P02" then
        "Invalid UUID or data format."
      else if strict_eq code "54001" then
        if includes message "infinite recursion"
        then "Infinite recursion detected in policy. Run the fix-recursive-policy.sql script."
        else "The database query is too complex."
      else
        ("Database error: " +:+ message) +:+
        (if truthy (get "details" error)
         then " (" +:+ to_string (get "details" error) +:+ ")"
         else "")
    else if has "message" error && is_string (get "message" error) then
      let message := to_string (get "message" error) in
      if includes message "infinite recursion"
      then "Infinite recursion detected in policy. Run the fix-recursive-policy.sql script to fix this issue."
      else message
    else unknown_error_message
  else unknown_error_message.

Definition isTableNotFoundError (error : value) : bool :=
  if is_object error && has "code" error then
    strict_eq (get "code" error) "42P01"
  else if is_object error && has "message" error && is_string (get "message" error) then
    includes (to_string (get "message" error)) "relation" &&
    includes (to_string (get "message" error)) "does not exist"
  else false.

Definition isRecursionError (error : value) : bool :=
  if is_object error && has "message" error && is_string (get "message" error) then
    includes (to_string (get "message" error)) "infinite recursion"
  else false.

(** The text after [${baseMessage}] in the first template literal, line
    breaks and indentation included. *)
Definition setup_instructions : string :=
  " Please make sure you've run all SQL setup scripts in this order: 
    1. schema.sql
    2. schema-enhancements-fixed.sql 
    3. schema-direct-messaging.sql".

Definition recursion_help : string :=
  " To fix this problem, run the fix-recursive-policy.sql script.".

Definition createErrorWithHelp (error : value) : string :=
  let baseMessage := handleDatabaseError error in
  if isTableNotFoundError error then baseMessage +:+ setup_instructions
  else if isRecursionError error then baseMessage +:+ recursion_help
  else baseMessage.

(** ** The ChatInterface component: MessageSchema and fetchMessages *)

Section validation.

(** The formats Zod checks for [.uuid()] and [.email()]. *)
Variables is_uuid is_email : string → bool.
(** [new Date().toISOString()] *)
Variable now_iso : string.

(** [z.string()], with an optional format check. *)
Definition z_string (format : string → bool) (v : value) : option value :=
  match v with
  | Str s => if format s then Some v else None
  | _ => None
  end.

(** [schema.optional()]: [undefined] passes as it is. *)
Definition z_optional (schema : value → option value) (v : value) : option value :=
  match v with
  | Undefined => Some Undefined
  | _ => schema v
  end.

(** One key of a [z.object]: the parsed value is stored unless it is
    [undefined] and the input has no such key. *)
Definition z_field (schema : value → option value) (k : string)
    (input : gmap string value) (out : gmap string value) : option (gmap string value) :=
  v ← schema (default Undefined (input !! k));
  Some (match v, input !! k with
        | Undefined, None => out
        | _, _ => <[k := v]> out
        end).

(** [MessageSchema.parse(input)]: [None] when it throws.  Keys outside the
    schema are dropped. *)
Definition MessageSchema_parse (input : value) : option value :=
  match input with
  | Obj props =>
    out ← z_field (z_string is_uuid) "id" props ∅;
    out ← z_field (z_string (λ _, true)) "content" props out;
    out ← z_field (z_string (λ _, true)) "created_at" props out;
    out ← z_field (z_string is_uuid) "user_id" props out;
    out ← z_field (z_optional (z_string is_email)) "user_email" props out;
    out ← z_field (z_optional (z_string is_uuid)) "room_id" props out;
    Some (Obj out)
  | _ => None
  end.

(** The object literal of the [catch] branch.  Reading a property of
    [null] or [undefined] throws ([None]). *)
Definition message_defaults (current_room_id : value) (message : value) : option value :=
  match message with
  | Undefined | Null => None
  | _ =>
    Some (Obj (list_to_map
      [ ("id", or_else (get "id" message) (Str ""));
        ("content", or_else (get "content" message) (Str ""));
        ("created_at", or_else (get "created_at" message) (Str now_iso));
        ("user_id", or_else (get "user_id" message) (Str ""));
        ("user_email", or_else (get "user_email" message) (Str "unknown@example.com"));
        ("room_id", or_else (get "room_id" message) current_room_id) ]))
  end.

(** The callback of [data.map]. *)
Definition validate_message (current_room_id : value) (message : value) : option value :=
  match MessageSchema_parse message with
  | Some parsed => Some parsed
  | None => message_defaults current_room_id message
  end.

(** What [fetchMessages] leaves in the component state. *)
Inductive fetch_outcome :=
  | SetMessages (validatedMessages : list value)
  | SetError (message : string).

(** The [if (data)] block: [data.map] inside the inner [try]. *)
Definition validate_messages (current_room_id : value) (data : list value) : fetch_outcome :=
  match mapM (validate_message current_room_id) data with
  | Some validatedMessages => SetMessages validatedMessages
  | None => SetError "Message data validation error"
  end.

(** The body of [fetchMessages] after the query resolved with
    [{ data, error }], for a current room. *)
Definition fetchMessages (current_room_id : value)
    (data : option (list value)) (error : value) : fetch_outcome :=
  if truthy error then SetError (createErrorWithHelp error)
  else match data with
       | Some rows => validate_messages current_room_id rows
       | None => SetMessages []
       end.

(** The reading of the fallback by its description: the row itself, where
    a field that is missing ([undefined] or [null]) gets its default. *)
Definition is_missing (v : option value) : bool :=
  match v with
  | None | Some Undefined | Some Null => true
  | Some _ => false
  end.

Definition fill_missing (current_room_id : value) (row : gmap string value)
    : gmap string value :=
  foldr (λ '(k, d) m, if is_missing (m !! k) then <[k := d]> m else m) row
    [ ("id", Str ""); ("content", Str ""); ("created_at", Str now_iso);
      ("user_id", Str ""); ("user_email", Str "unknown@example.com");
      ("room_id", current_room_id) ].

End validation.

(** *** Examples *)

(** A format that accepts every string: with it, a parse can only fail
    on the shape of the row. *)
Definition lenient (s : string) : bool := true.

(** An error object without a code whose message is empty, as
    [new Error()] is. *)
Definition error_empty_message : value := Obj {[ "message" := Str "" ]}.

(** An error with a code other than 42P01 whose message mentions a
    missing relation. *)
Definition error_other_code : value :=
  Obj (<[ "code" := Str "42883" ]>
        {[ "message" := Str "relation does not exist" ]}).

(** A row whose content is the number 0 and whose e-mail is empty. *)
Definition row_zero_content : gmap string value :=
  list_to_map
    [ ("id", Str "m1"); ("content", Num 0); ("created_at", Str "2024-01-01T00:00:00Z");
      ("user_id", Str "u1"); ("user_email", Str ""); ("room_id", Str "r1") ].

(** ** The ChatInterface component: RoomSchema and the room list *)

Section more_validation.

Variable is_uuid : string → bool.
Variable now_iso : string.

(** [z.boolean()] *)
Definition z_boolean (v : value) : option value :=
  match v with
  | Bool _ => Some v
  | _ => None
  end.

(** [schema.nullable()]: [null] passes as it is. *)
Definition z_nullable (schema : value → option value) (v : value) : option value :=
  match v with
  | Null => Some Null
  | _ => schema v
  end.

(** [RoomSchema.parse(input)] *)
Definition RoomSchema_parse (input : value) : option value :=
  match input with
  | Obj props =>
    out ← z_field (z_string is_uuid) "id" props ∅;
    out ← z_field (z_string (λ _, true)) "name" props out;
    out ← z_field (z_optional (z_string (λ _, true))) "description" props out;
    out ← z_field z_boolean "is_private" props out;
    out ← z_field (z_string (λ _, true)) "created_at" props out;
    Some (Obj out)
  | _ => None
  end.

(** The object literal of the [catch] branch in [initializeRooms]. *)
Definition room_defaults (room : value) : option value :=
  match room with
  | Undefined | Null => None
  | _ =>
    Some (Obj (list_to_map
      [ ("id", or_else (get "id" room) (Str ""));
        ("name", or_else (get "name" room) (Str "Unnamed Room"));
        ("description", or_else (get "description" room) (Str ""));
        ("is_private", or_else (get "is_private" room) (Bool false));
        ("created_at", or_else (get "created_at" room) (Str now_iso)) ]))
  end.

(** The callback of [existingRooms.map]. *)
Definition validate_room (room : value) : option value :=
  match RoomSchema_parse room with
  | Some parsed => Some parsed
  | None => room_defaults room
  end.

(** ** The DirectMessage component: ProfileSchema and the contact's name *)

(** [ProfileSchema.parse(input)] *)
Definition ProfileSchema_parse (input : value) : option value :=
  match input with
  | Obj props =>
    out ← z_field (z_optional (z_string is_uuid)) "id" props ∅;
    out ← z_field (z_nullable (z_optional (z_string (λ _, true)))) "username" props out;
    Some (Obj out)
  | _ => None
  end.

(** The value of [email] after the block "Validate profile data", for the
    [profileData] the query returned. *)
Definition contact_email (profileData : value) : string :=
  if truthy profileData then
    match ProfileSchema_parse profileData with
    | Some validatedProfile =>
      if truthy (get "username" validatedProfile)
      then to_string (get "username" validatedProfile)
      else "Unknown User"
    | None => "Unknown User"
    end
  else "Unknown User".

End more_validation.

(** The codes for which [handleDatabaseError] has a fixed message. *)
Definition fixed_message_codes : list string :=
  [ "42P01"; "23505"; "23503"; "42501"; "28000"; "22P02" ].

End Js.

(** * Properties of the database half *)

Import Sql.

(** ** Three-valued conditions *)

Section three_valued.
Context {A : Type} `{EqDecision A}.

Lemma sql_is_true_or (a b : sqlbool) :
  sql_is_true (sql_or a b) = sql_is_true a || sql_is_true b.
Proof. by destruct a as [[]|], b as [[]|]. Qed.

Lemma sql_is_true_and (a b : sqlbool) :
  sql_is_true (sql_and a b) = sql_is_true a && sql_is_true b.
Proof. by destruct a as [[]|], b as [[]|]. Qed.

Lemma sql_is_true_eq (x y : option A) :
  sql_is_true (sql_eq x y) = true ↔ ∃ a, x = Some a ∧ y = Some a.
Proof.
  destruct x as [a|], y as [b|]; simpl; try (split; [done | by intros (? & ? & ?)]).
  case_bool_decide as Hab; split; try done.
  - intros _. exists a. by subst.
  - intros (c & ? & ?). congruence.
Qed.

(** [x IN rows] is TRUE exactly when [x] is not NULL and occurs among
    the rows. *)
Lemma sql_is_true_in (x : option A) (rows : list (option A)) :
  sql_is_true (sql_in x rows) = true ↔ ∃ a, x = Some a ∧ Some a ∈ rows.
Proof.
  induction rows as [|r rows IH]; simpl.
  - split; [done | intros (a & _ & Hin); inversion Hin].
  - rewrite sql_is_true_or, orb_true_iff, IH, sql_is_true_eq. split.
    + intros [(a & -> & ->) | (a & -> & Hin)]; exists a; split; auto; constructor; done.
    + intros (a & -> & Hin). apply elem_of_cons in Hin as [<- | Hin]; eauto.
Qed.
End three_valued.

(** ** Subqueries of the policies *)

Lemma elem_of_my_conversation_ids (auth_uid : option uuid) (s : db) (c : uuid) :
  Some c ∈ my_conversation_ids auth_uid s ↔
  ∃ u, auth_uid = Some u ∧ is_participant u c s.
Proof.
  unfold my_conversation_ids, is_participant.
  rewrite list_elem_of_fmap. split.
  - intros (p & [= ->] & Hp). apply list_elem_of_filter in Hp as [Heq Hp].
    apply Is_true_true, sql_is_true_eq in Heq as (u & [= <-] & ->). eauto 6.
  - intros (u & -> & p & Hp & <- & <-). exists p. split; [done|].
    apply list_elem_of_filter. split; [|done].
    apply Is_true_true, sql_is_true_eq. eauto.
Qed.

Lemma elem_of_my_room_ids (auth_uid : option uuid) (s : db) (r : uuid) :
  Some r ∈ my_room_ids auth_uid s ↔ ∃ u, auth_uid = Some u ∧ has_membership u r s.
Proof.
  unfold my_room_ids, has_membership.
  rewrite list_elem_of_fmap. split.
  - intros (m & [= ->] & Hm). apply list_elem_of_filter in Hm as [Heq Hm].
    apply Is_true_true, sql_is_true_eq in Heq as (u & [= <-] & ->). eauto 6.
  - intros (u & -> & m & Hm & <- & <-). exists m. split; [done|].
    apply list_elem_of_filter. split; [|done].
    apply Is_true_true, sql_is_true_eq. eauto.
Qed.

Lemma elem_of_public_room_ids (s : db) (r : uuid) :
  Some r ∈ public_room_ids s ↔
  ∃ x, x ∈ rooms s ∧ room_id x = r ∧ room_is_private x = Some false.
Proof.
  unfold public_room_ids. rewrite list_elem_of_fmap. split.
  - intros (x & [= ->] & Hx). apply list_elem_of_filter in Hx as [Heq Hx].
    apply Is_true_true, sql_is_true_eq in Heq as (b & Hb & [= <-]). eauto.
  - intros (x & Hx & <- & Hpub). exists x. split; [done|].
    apply list_elem_of_filter. split; [|done].
    apply Is_true_true, sql_is_true_eq. eauto.
Qed.

(** ** Running statements *)

Section running.
Context {A : Type}.

Lemma pg_check_passes (ok : db → bool) (e : sqlstate) (k : plpgsql A) (s : db) :
  ok s = true → (pg_check ok e ;;$ k) s = k s.
Proof. intros H. unfold pg_bind, pg_check. by rewrite H. Qed.

Lemma pg_check_raises (ok : db → bool) (e : sqlstate) (k : plpgsql A) (s : db) :
  ok s = false → (pg_check ok e ;;$ k) s = inl e.
Proof. intros H. unfold pg_bind, pg_check. by rewrite H. Qed.

Lemma pg_update_then (f : db → db) (k : plpgsql A) (s : db) :
  (pg_update f ;;$ k) s = k (f s).
Proof. done. Qed.

Lemma execute_raises (m : plpgsql A) (e : sqlstate) (s : db) :
  m s = inl e → execute m s = (inl e, s).
Proof. intros H. unfold execute. by rewrite H. Qed.

Lemma execute_returns (m : plpgsql A) (a : A) (s s' : db) :
  m s = inr (a, s') → execute m s = (inr a, s').
Proof. intros H. unfold execute. by rewrite H. Qed.

Lemma row_security_passes
    (schema : list policy) (c : command) (r : relation) (k : plpgsql A) (s : db) :
  infinite_recursion (length relations) schema [] c r = false →
  (row_security schema c r ;;$ k) s = k s.
Proof. intros H. unfold pg_bind, row_security. by rewrite H. Qed.

Lemma row_security_raises
    (schema : list policy) (c : command) (r : relation) (k : plpgsql A) (s : db) :
  infinite_recursion (length relations) schema [] c r = true →
  execute (row_security schema c r ;;$ k) s = (inl invalid_object_definition, s).
Proof. intros H. unfold execute, pg_bind, row_security. by rewrite H. Qed.
End running.

(** ** The rewriter *)

Lemma elem_of_relations (r : relation) : r ∈ relations.
Proof. destruct r; unfold relations; set_solver. Qed.

(** Once every table is being expanded, each one is. *)
Lemma active_relations_full (activeRIRs : list relation) (r : relation) :
  NoDup activeRIRs → length relations ≤ length activeRIRs → r ∈ activeRIRs.
Proof.
  intros Hnd Hlen. destruct (decide (r ∈ activeRIRs)) as [|Hr]; [done|]. exfalso.
  assert (Hsub : r :: activeRIRs ⊆+ relations).
  { apply NoDup_submseteq; [by apply NoDup_cons|]. intros x _. apply elem_of_relations. }
  apply submseteq_length in Hsub.
  change (S (length activeRIRs) ≤ length relations) in Hsub. lia.
Qed.

Lemma existsb_eq {B} (f g : B → bool) (l : list B) :
  (∀ x, f x = g x) → existsb f l = existsb g l.
Proof. intros Hfg. induction l as [|x l IH]; [done|]. simpl. by rewrite Hfg, IH. Qed.

(** The bound on the nesting is never what ends the expansion: any two
    bounds that leave room for the tables not yet being expanded give the
    same answer. *)
Lemma infinite_recursion_depth
    (schema : list policy) (depth1 depth2 : nat) (activeRIRs : list relation)
    (c : command) (r : relation) :
  NoDup activeRIRs →
  length relations ≤ depth1 + length activeRIRs →
  length relations ≤ depth2 + length activeRIRs →
  infinite_recursion depth1 schema activeRIRs c r =
  infinite_recursion depth2 schema activeRIRs c r.
Proof.
  revert depth2 activeRIRs c r.
  induction depth1 as [|depth1 IH]; intros [|depth2] activeRIRs c r Hnd H1 H2;
    cbn [infinite_recursion];
    destruct (sublink_tables schema c r) as [|t tables]; try done;
    destruct (decide (r ∈ activeRIRs)) as [|Hr]; try done.
  - exfalso. by apply Hr, active_relations_full.
  - exfalso. by apply Hr, active_relations_full.
  - apply existsb_eq. intros x.
    apply IH; [by apply NoDup_cons|..];
      change (length (r :: activeRIRs)) with (S (length activeRIRs)); lia.
Qed.

Lemma select_from_raises {A} (schema : list policy) (r : relation)
    (table : db → list A) (qual : db → A → bool) (s : db) :
  infinite_recursion (length relations) schema [] Select r = true →
  execute (select_from schema r table qual) s = (inl invalid_object_definition, s).
Proof. apply row_security_raises. Qed.

(** The circle through [rooms] and [room_members] is closed by one policy:
    without "Users can see other members in their rooms", the statements
    on the room tables get past the rewriter, subqueries and all. *)
Lemma circle_closed_by_one_policy (c : command) (r : relation) :
  r ∉ [Direct_conversations; Direct_participants; Direct_messages] →
  infinite_recursion (length relations)
    (filter (λ p, policy_name p ≠ "Users can see other members in their rooms")
            migrations) [] c r = false.
Proof.
  rewrite <- (bool_decide_spec (_ ∉ _)). by destruct c, r; vm_compute.
Qed.

(** ** What the expressions of the policies say *)

(** The USING expression of "Users can view messages in their
    conversations" is TRUE of a row exactly when the caller has a
    participant row in the row's conversation. *)
Lemma direct_messages_policy_caller (auth_uid : option uuid) (s : db) (m : direct_message) :
  direct_messages_select_policy auth_uid s m = true ↔
  caller_participates auth_uid (dm_conversation_id m) s.
Proof.
  unfold direct_messages_select_policy, caller_participates.
  rewrite sql_is_true_in. setoid_rewrite elem_of_my_conversation_ids. split.
  - by intros (c & [= <-] & Hc).
  - eauto.
Qed.

(** The disjunction of the two USING expressions on [rooms] is TRUE of a
    room exactly when it is public or the caller has a membership row for
    it. *)
Lemma rooms_select_policy_true (auth_uid : option uuid) (s : db) (r : room) :
  rooms_select_policy auth_uid s r = true ↔
  room_is_private r = Some false ∨
  ∃ u, auth_uid = Some u ∧ has_membership u (room_id r) s.
Proof.
  unfold rooms_select_policy, public_rooms_viewable, private_rooms_viewable.
  rewrite !sql_is_true_or, !orb_true_iff, sql_is_true_eq, sql_is_true_in.
  setoid_rewrite elem_of_my_room_ids. split.
  - intros [(b & Hb & [= <-]) | [(b & Hb & [= <-]) | (c & [= <-] & Hc)]]; auto.
  - intros [Hpub | Hmem]; [left; eauto | right; right; eauto].
Qed.

(** The WITH CHECK expression of "Users can insert messages in their
    rooms" is TRUE of a row exactly when its [user_id] is the caller and
    its [room_id] is the id of a public room or of a room the caller has a
    membership row for. *)
Lemma messages_insert_policy_true (auth_uid : option uuid) (s : db) (new : message) :
  messages_insert_policy auth_uid s new = true ↔
  auth_uid = Some (msg_user_id new) ∧
  ∃ r, msg_room_id new = Some r ∧
       ((∃ x, x ∈ rooms s ∧ room_id x = r ∧ room_is_private x = Some false) ∨
        has_membership (msg_user_id new) r s).
Proof.
  unfold messages_insert_policy, sql_union.
  rewrite sql_is_true_and, andb_true_iff, sql_is_true_eq, sql_is_true_in.
  setoid_rewrite elem_of_remove_dups. setoid_rewrite elem_of_app.
  setoid_rewrite elem_of_public_room_ids. setoid_rewrite elem_of_my_room_ids.
  split.
  - intros [(u & -> & [= <-]) (r & Hr & Hin)]. split; [done|].
    exists r. split; [done|].
    destruct Hin as [Hpub | (u' & [= <-] & Hmem)]; auto.
  - intros [-> (r & Hr & Hin)]. split; [eauto|].
    exists r. split; [done|]. destruct Hin as [Hpub | Hmem]; eauto.
Qed.

(** ** Reading direct messages *)

(** C2, on the code: the policy FOR SELECT on [direct_messages], and the
    one on [direct_conversations], ask [direct_participants], whose own
    policy FOR SELECT asks [direct_participants] again.  So for every
    caller and every database a SELECT on any of the three tables raises
    42P17 and returns no row, the rows of the caller's own conversations
    included. *)
Theorem direct_messaging_reads_raise (auth_uid : option uuid) (s : db) :
  execute (select_direct_messages auth_uid) s = (inl invalid_object_definition, s) ∧
  execute (select_direct_conversations auth_uid) s = (inl invalid_object_definition, s) ∧
  execute (select_direct_participants auth_uid) s = (inl invalid_object_definition, s).
Proof. repeat split; by apply select_from_raises. Qed.

(** ** Reading rooms and posting room messages *)

(** C3, on the code: the second policy FOR SELECT on [rooms] asks
    [room_members], and "Users can see other members in their rooms" on
    [room_members] asks [rooms] again.  So for every caller and every
    database a SELECT on [rooms] raises 42P17: no room is returned, the
    public ones included. *)
Theorem rooms_select_raises (auth_uid : option uuid) (s : db) :
  execute (select_rooms auth_uid) s = (inl invalid_object_definition, s).
Proof. by apply select_from_raises. Qed.

(** C4, on the code: the policy FOR INSERT on [messages] asks [rooms] and
    [room_members], which ask each other.  So for every caller, row and
    database an INSERT into [messages] raises 42P17 and the database stays
    as it was: no insert is permitted, the caller's own row for a public
    room included. *)
Theorem messages_insert_raises (auth_uid : option uuid) (new : message) (s : db) :
  execute (insert_message auth_uid new) s = (inl invalid_object_definition, s).
Proof. by apply row_security_raises. Qed.

(** ** The trigger on direct messages *)

Lemma fmap_touch_other (conv : uuid) (now : timestamptz) (l : list direct_conversation) :
  conv ∉ (dc_id <$> l) →
  (λ c, if decide (dc_id c = conv)
        then mk_direct_conversation (dc_id c) (dc_created_at c) now else c) <$> l = l.
Proof.
  induction l as [|c l IH]; [done|]. rewrite fmap_cons, not_elem_of_cons.
  intros [Hc Hl]. rewrite fmap_cons, IH by done. by rewrite decide_False.
Qed.

(** C9. The trigger function touches no table but [direct_conversations];
    there it keeps the number and order of rows, keeps [id] and
    [created_at] of every row, keeps every row whose id is not
    [NEW.conversation_id] entirely, and sets [updated_at] of a row with
    that id; with the primary key in force and the conversation present
    this is one single row. *)
Theorem update_conversation_timestamp_frame
    (new : direct_message) (now : timestamptz) (s : db) :
  let s' := update_conversation_timestamp new now s in
  (auth_users s' = auth_users s ∧ rooms s' = rooms s ∧
   room_members s' = room_members s ∧ messages s' = messages s ∧
   direct_participants s' = direct_participants s ∧
   direct_messages s' = direct_messages s) ∧
  (∀ i c, direct_conversations s !! i = Some c →
     ∃ c', direct_conversations s' !! i = Some c' ∧
           dc_id c' = dc_id c ∧ dc_created_at c' = dc_created_at c ∧
           (dc_id c ≠ dm_conversation_id new → c' = c) ∧
           (dc_id c = dm_conversation_id new → dc_updated_at c' = now)) ∧
  length (direct_conversations s') = length (direct_conversations s) ∧
  (NoDup (dc_id <$> direct_conversations s) →
   dm_conversation_id new ∈ (dc_id <$> direct_conversations s) →
   ∃ before c after,
     dc_id c = dm_conversation_id new ∧
     direct_conversations s = before ++ c :: after ∧
     direct_conversations s' =
       before ++ mk_direct_conversation (dc_id c) (dc_created_at c) now :: after).
Proof.
  simpl. split; [done|]. split; [|split].
  - intros i c Hi. rewrite list_lookup_fmap, Hi. simpl.
    eexists. split; [done|]. by case_decide.
  - by rewrite length_fmap.
  - intros Hkey (c & Hc & Hin)%list_elem_of_fmap_1.
    apply list_elem_of_split in Hin as (before & after & Heq).
    exists before, c, after. split; [done|]. split; [done|].
    rewrite Heq in Hkey |- *. rewrite fmap_app, fmap_cons in Hkey.
    apply NoDup_app in Hkey as (_ & Hbefore & Hafter).
    apply NoDup_cons in Hafter as [Hafter _].
    rewrite fmap_app, fmap_cons, decide_True by done.
    rewrite !fmap_touch_other; [done | by rewrite Hc | rewrite Hc ].
    intros Hb. apply (Hbefore _ Hb). rewrite <- Hc. apply list_elem_of_here.
Qed.

(** A message in conversation 100 of [db_chat] touches that row alone. *)
Lemma update_conversation_timestamp_frame_witness :
  ∃ before c after,
    dc_id c = 100%N ∧
    direct_conversations db_chat = before ++ c :: after ∧
    direct_conversations
      (update_conversation_timestamp
         (mk_direct_message 310%N 100%N 2%N "hi" 9000%Z) 9000%Z db_chat) =
    before ++ mk_direct_conversation (dc_id c) (dc_created_at c) 9000%Z :: after.
Proof.
  apply (update_conversation_timestamp_frame
           (mk_direct_message 310%N 100%N 2%N "hi" 9000%Z) 9000%Z db_chat).
  - simpl. apply NoDup_cons. split.
    + intros H. apply list_elem_of_singleton in H. done.
    + apply NoDup_singleton.
  - simpl. apply list_elem_of_here.
Defined.

(** ** find_or_create_conversation *)

(** *** The lookup *)

Lemma elem_of_participants_of (p : direct_participant) (c : uuid) (s : db) :
  p ∈ participants_of c s ↔ p ∈ direct_participants s ∧ dp_conversation_id p = c.
Proof. unfold participants_of. rewrite list_elem_of_filter. tauto. Qed.

Lemma elem_of_existing_conversations (u1 u2 x : uuid) (s : db) :
  x ∈ existing_conversations u1 u2 s ↔
  x ∈ (dc_id <$> direct_conversations s) ∧
  (∃ p1, p1 ∈ participants_of x s ∧ dp_user_id p1 = u1) ∧
  (∃ p2, p2 ∈ participants_of x s ∧ dp_user_id p2 = u2) ∧
  participant_count x s = 2.
Proof.
  unfold existing_conversations. rewrite list_elem_of_bind. split.
  - intros (c & Hx & Hc).
    apply list_elem_of_bind in Hx as (p1 & Hx & Hp1).
    apply list_elem_of_bind in Hx as (p2 & Hx & Hp2).
    case_decide as Hcount; [|inversion Hx].
    apply list_elem_of_singleton in Hx as ->.
    apply list_elem_of_filter in Hp1 as [[Hc1 Hu1] Hp1].
    apply list_elem_of_filter in Hp2 as [[Hc2 Hu2] Hp2].
    split; [by apply list_elem_of_fmap_2|].
    split; [|split; [|done]].
    + exists p1. by rewrite elem_of_participants_of.
    + exists p2. by rewrite elem_of_participants_of.
  - intros (Hx & (p1 & Hp1 & Hu1) & (p2 & Hp2 & Hu2) & Hcount).
    apply list_elem_of_fmap_1 in Hx as (c & -> & Hc).
    apply elem_of_participants_of in Hp1 as [Hp1 Hc1].
    apply elem_of_participants_of in Hp2 as [Hp2 Hc2].
    exists c. split; [|done].
    apply list_elem_of_bind. exists p1. split; [|by apply list_elem_of_filter].
    apply list_elem_of_bind. exists p2. split; [|by apply list_elem_of_filter].
    rewrite decide_True by done. apply list_elem_of_here.
Qed.

(** For two different users the lookup returns exactly the conversations
    whose participant rows are one of each. *)
Lemma existing_conversations_pair (u1 u2 x : uuid) (s : db) :
  u1 ≠ u2 →
  x ∈ existing_conversations u1 u2 s ↔ pair_conversation u1 u2 x s.
Proof.
  intros Hne. rewrite elem_of_existing_conversations. unfold pair_conversation.
  split.
  - intros (Hx & (p1 & Hp1 & Hu1) & (p2 & Hp2 & Hu2) & Hcount).
    split; [done|]. exists p1, p2. split; [|done].
    unfold participant_count in Hcount.
    destruct (participants_of x s) as [|a [|b [|??]]]; try done.
    assert (p1 ≠ p2) by congruence.
    apply elem_of_cons in Hp1 as [-> | ->%list_elem_of_singleton];
      apply elem_of_cons in Hp2 as [-> | ->%list_elem_of_singleton];
      try done.
    apply perm_swap.
  - intros (Hx & p1 & p2 & Hperm & Hu1 & Hu2). split; [done|].
    split; [|split].
    + exists p1. split; [|done]. rewrite Hperm. apply list_elem_of_here.
    + exists p2. split; [|done]. rewrite Hperm.
      apply list_elem_of_further, list_elem_of_here.
    + unfold participant_count. by rewrite Hperm.
Qed.

Lemma pair_conversation_sym (u1 u2 c : uuid) (s : db) :
  pair_conversation u1 u2 c s → pair_conversation u2 u1 c s.
Proof.
  intros (Hc & p1 & p2 & Hperm & Hu1 & Hu2). split; [done|].
  exists p2, p1. split; [|done]. rewrite Hperm. apply perm_swap.
Qed.

Lemma bind_const_nil {A B} (l : list A) : l ≫= (λ _, @nil B) = [].
Proof. induction l as [|a l IH]; [done|]. by rewrite bind_cons, IH. Qed.

Lemma bind_const_replicate {A B} (l : list A) (n : nat) (x : B) :
  l ≫= (λ _, replicate n x) = replicate (length l * n) x.
Proof.
  induction l as [|a l IH]; [done|].
  rewrite bind_cons, IH. simpl. by rewrite replicate_add.
Qed.

(** The lookup does not depend on the order of its two arguments. *)
Lemma existing_conversations_sym (u1 u2 : uuid) (s : db) :
  existing_conversations u1 u2 s = existing_conversations u2 u1 s.
Proof.
  unfold existing_conversations. apply list_bind_ext; [|done]. intros c.
  case_decide.
  - change [dc_id c] with (replicate 1 (dc_id c)).
    rewrite !bind_const_replicate. f_equal. lia.
  - by rewrite !bind_const_nil.
Qed.

(** *** LIMIT 1 *)

Lemma select_into_None {A} (n : nat) (rows : list A) :
  select_into n rows = None ↔ rows = [].
Proof.
  unfold select_into. destruct rows as [|x rows]; [done|].
  split; [|done]. intros H%lookup_ge_None_1.
  pose proof (Nat.mod_upper_bound n (length (x :: rows))) as Hlt.
  simpl in *. lia.
Qed.

Lemma select_into_Some {A} (n : nat) (rows : list A) (x : A) :
  select_into n rows = Some x → x ∈ rows.
Proof. unfold select_into. apply list_elem_of_lookup_2. Qed.

(** Every row of the query comes first for some choice of the executor. *)
Lemma select_into_any {A} (rows : list A) (x : A) :
  x ∈ rows → ∃ n, select_into n rows = Some x.
Proof.
  intros (i & Hi)%list_elem_of_lookup_1. exists i. unfold select_into.
  rewrite Nat.mod_small; [done|]. by eapply lookup_lt_Some.
Qed.

(** When all rows are the same, the choice does not show. *)
Lemma select_into_unique {A} (n : nat) (rows : list A) (x : A) :
  x ∈ rows → (∀ y, y ∈ rows → y = x) → select_into n rows = Some x.
Proof.
  intros Hx Hall. destruct (select_into n rows) as [y|] eqn:Hsel.
  - f_equal. by apply Hall, (select_into_Some n).
  - apply select_into_None in Hsel as ->. inversion Hx.
Qed.

(** *** The two halves of the function *)

Lemma find_or_create_conversation_found (u1 u2 c : uuid) (d : defaults) (s : db) :
  select_into (first_row d) (existing_conversations u1 u2 s) = Some c →
  execute (find_or_create_conversation u1 u2 d) s = (inr c, s).
Proof.
  intros H. unfold execute, find_or_create_conversation, pg_bind, pg_query.
  by rewrite H.
Qed.

Lemma find_or_create_conversation_not_found (u1 u2 : uuid) (d : defaults) (s : db) :
  existing_conversations u1 u2 s = [] →
  execute (find_or_create_conversation u1 u2 d) s =
  execute (create_conversation u1 u2 d) s.
Proof.
  intros H. unfold execute, find_or_create_conversation, pg_bind, pg_query.
  by rewrite H.
Qed.

Ltac run_create :=
  unfold execute, create_conversation, insert_direct_conversation,
    insert_direct_participants, insert_direct_participant_row,
    check_direct_participant_fkeys, pg_for_each, pg_bind, pg_check, pg_update,
    pg_ret; simpl.

(** Creating either returns the new id, leaving one more conversation and
    two more participant rows, or raises. *)
Lemma create_conversation_cases (u1 u2 : uuid) (d : defaults) (s : db) :
  (execute (create_conversation u1 u2 d) s =
     (inr (new_conversation_uuid d), with_new_conversation u1 u2 d s) ∧
   (new_conversation_uuid d ∉ dc_id <$> direct_conversations s) ∧
   u1 ≠ u2) ∨
  (∃ e, execute (create_conversation u1 u2 d) s = (inl e, s)).
Proof.
  run_create.
  repeat (case_bool_decide; simpl; [|right; eauto]).
  left. split; [|split; [done|]].
  - unfold with_new_conversation, with_direct_participants, with_direct_conversations.
    simpl. by rewrite <- app_assoc.
  - intros ->.
    match goal with H : (_, _) ∉ _ <$> _ ++ _ |- _ => apply H end.
    rewrite fmap_app. apply elem_of_app. right. apply list_elem_of_here.
Qed.

Lemma create_conversation_succeeds (u1 u2 : uuid) (d : defaults) (s : db) :
  u1 ≠ u2 → participants_fkey s → fresh_defaults d s →
  u1 ∈ auth_users s → u2 ∈ auth_users s →
  execute (create_conversation u1 u2 d) s =
  (inr (new_conversation_uuid d), with_new_conversation u1 u2 d s).
Proof.
  intros Hne Hfk (Hc & Hp1 & Hp2 & Hp12) Hu1 Hu2.
  assert (Hpair : ∀ u, (new_conversation_uuid d, u) ∉
            (λ q, (dp_conversation_id q, dp_user_id q)) <$> direct_participants s).
  { intros u (q & [= Hq _] & Hin)%list_elem_of_fmap_1.
    apply Hc. rewrite Hq. by apply Hfk. }
  assert (Hnew : new_conversation_uuid d ∈
            dc_id <$> direct_conversations s ++
              [mk_direct_conversation (new_conversation_uuid d) (now d) (now d)]).
  { rewrite fmap_app. apply elem_of_app. right. apply list_elem_of_here. }
  run_create.
  rewrite !bool_decide_true; try done; simpl.
  - unfold with_new_conversation, with_direct_participants, with_direct_conversations.
    simpl. by rewrite <- app_assoc.
  - rewrite fmap_app, elem_of_app. simpl. rewrite list_elem_of_singleton.
    intros [H | [= H]]; [by eapply Hpair | done].
  - rewrite fmap_app, elem_of_app. simpl. rewrite list_elem_of_singleton.
    intros [H | H]; done.
Qed.

(** With twice the same user the second participant row collides with the
    first one. *)
Lemma create_conversation_same_user (u : uuid) (d : defaults) (s : db) :
  execute (create_conversation u u d) s = (inl unique_violation, s).
Proof.
  run_create.
  repeat (case_bool_decide; simpl; [|done]).
  exfalso. simpl in *.
  match goal with H : (_, _) ∉ _ <$> _ ++ _ |- _ => apply H end.
  rewrite fmap_app. apply elem_of_app. right. apply list_elem_of_here.
Qed.

(** *** The database after a creation *)

Lemma participants_of_fresh (c : uuid) (s : db) :
  participants_fkey s → c ∉ (dc_id <$> direct_conversations s) →
  participants_of c s = [].
Proof.
  intros Hfk Hc. unfold participants_of.
  destruct (filter _ _) as [|p l] eqn:Hf; [done|]. exfalso.
  assert (Hp : p ∈ filter (λ p, dp_conversation_id p = c) (direct_participants s))
    by (rewrite Hf; apply list_elem_of_here).
  apply list_elem_of_filter in Hp as [<- Hp]. by apply Hc, Hfk.
Qed.

Lemma participants_of_with_new (x u1 u2 : uuid) (d : defaults) (s : db) :
  participants_of x (with_new_conversation u1 u2 d s) =
  participants_of x s ++
  (if decide (new_conversation_uuid d = x)
   then [ mk_direct_participant (participant1_uuid d) (new_conversation_uuid d) u1 (now d);
          mk_direct_participant (participant2_uuid d) (new_conversation_uuid d) u2 (now d) ]
   else []).
Proof.
  unfold participants_of. simpl. rewrite filter_app. f_equal.
  rewrite !filter_cons, filter_nil. simpl. by case_decide.
Qed.

Lemma participants_fkey_with_new (u1 u2 : uuid) (d : defaults) (s : db) :
  participants_fkey s → participants_fkey (with_new_conversation u1 u2 d s).
Proof.
  intros Hfk p. simpl. rewrite fmap_app, !elem_of_app. simpl.
  intros [Hp | Hp]; [left; by apply Hfk | right].
  apply elem_of_cons in Hp as [-> | ->%list_elem_of_singleton];
    apply list_elem_of_here.
Qed.

(** After a creation for [(u1, u2)], the conversations of a pair [(a, b)]
    are the old ones, and the new one if the pair is the same. *)
Lemma pair_conversation_with_new (a b x u1 u2 : uuid) (d : defaults) (s : db) :
  participants_fkey s →
  new_conversation_uuid d ∉ (dc_id <$> direct_conversations s) →
  pair_conversation a b x (with_new_conversation u1 u2 d s) ↔
  (x ≠ new_conversation_uuid d ∧ pair_conversation a b x s) ∨
  (x = new_conversation_uuid d ∧ ((a = u1 ∧ b = u2) ∨ (a = u2 ∧ b = u1))).
Proof.
  intros Hfk Hnew. unfold pair_conversation.
  rewrite participants_of_with_new. simpl.
  rewrite fmap_app, elem_of_app. simpl. rewrite list_elem_of_singleton.
  destruct (decide (new_conversation_uuid d = x)) as [<- | Hx].
  - rewrite participants_of_fresh by done. simpl. split.
    + intros (_ & p1 & p2 & Hperm & <- & <-). right. split; [done|].
      apply Permutation_length_2_inv in Hperm as [[= -> ->] | [= -> ->]]; auto.
    + intros [[? _] | [_ Hab]]; [done|]. split; [by right|].
      destruct Hab as [[-> ->] | [-> ->]].
      * by eexists _, _.
      * eexists _, _. split; [apply perm_swap | done].
  - rewrite app_nil_r. split.
    + intros ([Hin | ->] & Hp); [|done]. left. done.
    + intros [[_ [Hin Hp]] | [-> _]]; [|done]. split; [by left | done].
Qed.

(** *** C1 *)

(** C1. For two different users: when a conversation exists whose
    participant rows are exactly one of each, the call returns the id of
    such a conversation and leaves the database as it is; otherwise, the
    users being registered and the generated identifiers unused, it
    returns the generated id after appending one conversation row and two
    participant rows for it, one per user, and nothing else. *)
Theorem find_or_create_conversation_spec (u1 u2 : uuid) (d : defaults) (s : db) :
  u1 ≠ u2 →
  ((∃ c, pair_conversation u1 u2 c s) →
   ∃ c, pair_conversation u1 u2 c s ∧
        execute (find_or_create_conversation u1 u2 d) s = (inr c, s)) ∧
  ((¬ ∃ c, pair_conversation u1 u2 c s) →
   participants_fkey s → fresh_defaults d s →
   u1 ∈ auth_users s → u2 ∈ auth_users s →
   ∃ s', execute (find_or_create_conversation u1 u2 d) s =
           (inr (new_conversation_uuid d), s') ∧
         direct_conversations s' =
           direct_conversations s ++
           [mk_direct_conversation (new_conversation_uuid d) (now d) (now d)] ∧
         direct_participants s' =
           direct_participants s ++
           [mk_direct_participant (participant1_uuid d) (new_conversation_uuid d)
                                  u1 (now d);
            mk_direct_participant (participant2_uuid d) (new_conversation_uuid d)
                                  u2 (now d)] ∧
         auth_users s' = auth_users s ∧ rooms s' = rooms s ∧
         room_members s' = room_members s ∧ messages s' = messages s ∧
         direct_messages s' = direct_messages s).
Proof.
  intros Hne. split.
  - intros [c Hc]. apply existing_conversations_pair in Hc; [|done].
    destruct (select_into (first_row d) (existing_conversations u1 u2 s))
      as [c0|] eqn:Hsel.
    + exists c0. split.
      * apply existing_conversations_pair; [done|].
        by apply (select_into_Some (first_row d)).
      * by apply find_or_create_conversation_found.
    + apply select_into_None in Hsel. rewrite Hsel in Hc. inversion Hc.
  - intros Hnone Hfk Hfresh Hu1 Hu2.
    exists (with_new_conversation u1 u2 d s). split; [|done].
    rewrite find_or_create_conversation_not_found.
    + by apply create_conversation_succeeds.
    + destruct (existing_conversations u1 u2 s) as [|c0 l] eqn:Hl; [done|].
      exfalso. apply Hnone. exists c0.
      apply existing_conversations_pair; [done|]. rewrite Hl. apply list_elem_of_here.
Qed.

Lemma db_two_users_no_pair (a b : uuid) : ¬ ∃ c, pair_conversation a b c db_two_users.
Proof. intros (c & Hc & _). inversion Hc. Qed.

Lemma db_two_users_fkey : participants_fkey db_two_users.
Proof. intros p Hp. inversion Hp. Qed.

Lemma defaults_a_fresh : fresh_defaults defaults_a db_two_users.
Proof. repeat split; try done; intros H; inversion H. Qed.

(** From [db_two_users] the call creates conversation 100; in [db_chat]
    it finds conversation 100 of users 1 and 2. *)
Lemma find_or_create_conversation_spec_witness :
  (∃ s', execute (find_or_create_conversation 1%N 2%N defaults_a) db_two_users =
           (inr 100%N, s') ∧
         direct_conversations s' = [mk_direct_conversation 100%N 5000%Z 5000%Z] ∧
         direct_participants s' =
           [mk_direct_participant 101%N 100%N 1%N 5000%Z;
            mk_direct_participant 102%N 100%N 2%N 5000%Z]) ∧
  (∃ c, pair_conversation 1%N 2%N c db_chat ∧
        execute (find_or_create_conversation 1%N 2%N defaults_a) db_chat = (inr c, db_chat)).
Proof.
  destruct (find_or_create_conversation_spec 1%N 2%N defaults_a db_two_users)
    as [_ Hcreate]; [done|].
  destruct (find_or_create_conversation_spec 1%N 2%N defaults_a db_chat)
    as [Hfind _]; [done|].
  split.
  - destruct Hcreate as (s' & Hexec & Hconv & Hpart & _).
    + apply db_two_users_no_pair.
    + apply db_two_users_fkey.
    + apply defaults_a_fresh.
    + apply list_elem_of_here.
    + apply list_elem_of_further, list_elem_of_here.
    + exists s'. done.
  - apply Hfind. exists 100%N. split; [apply list_elem_of_here|].
    by exists (mk_direct_participant 101%N 100%N 1%N 2000%Z),
              (mk_direct_participant 102%N 100%N 2%N 2000%Z).
Defined.

(** With at most one conversation for the pair, which row [LIMIT 1] picks
    does not matter: all rows of the lookup carry the same id. *)
Lemma lookup_choice_irrelevant (u1 u2 x y : uuid) (s : db) :
  u1 ≠ u2 → at_most_one_pair_conversation u1 u2 s →
  x ∈ existing_conversations u1 u2 s → y ∈ existing_conversations u1 u2 s → x = y.
Proof.
  intros Hne Hone Hx%existing_conversations_pair Hy%existing_conversations_pair;
    [by apply Hone | done..].
Qed.

(** *** C8 *)

Lemma existing_conversations_same_user (u x : uuid) (s : db) :
  x ∈ existing_conversations u u s ↔
  x ∈ (dc_id <$> direct_conversations s) ∧ is_participant u x s ∧
  participant_count x s = 2.
Proof.
  rewrite elem_of_existing_conversations. unfold is_participant.
  setoid_rewrite elem_of_participants_of. split.
  - intros (Hx & (p & [Hp Hc] & Hu) & _ & Hcount). eauto 8.
  - intros (Hx & (p & Hp & Hu & Hc) & Hcount). eauto 10.
Qed.

(** Where [u] has no participant row in a conversation with exactly two
    participant rows, the call with twice [u] raises a uniqueness error
    and leaves the database as it was. *)
Lemma same_user_call_raises (u : uuid) (d : defaults) (s : db) :
  (∀ c, c ∈ (dc_id <$> direct_conversations s) → is_participant u c s →
        participant_count c s ≠ 2) →
  execute (find_or_create_conversation u u d) s = (inl unique_violation, s).
Proof.
  intros Hnone. rewrite find_or_create_conversation_not_found.
  - apply create_conversation_same_user.
  - destruct (existing_conversations u u s) as [|c l] eqn:Hl; [done|]. exfalso.
    assert (Hc : c ∈ existing_conversations u u s) by (rewrite Hl; apply list_elem_of_here).
    apply existing_conversations_same_user in Hc as (Hc & Hp & Hcount).
    by apply (Hnone c).
Qed.

(** Otherwise the call returns one of the two-row conversations of [u],
    whoever the other participant is. *)
Lemma same_user_call_finds_shared_conversation (u c : uuid) (d : defaults) (s : db) :
  c ∈ (dc_id <$> direct_conversations s) → is_participant u c s →
  participant_count c s = 2 →
  ∃ c', is_participant u c' s ∧ participant_count c' s = 2 ∧
        execute (find_or_create_conversation u u d) s = (inr c', s).
Proof.
  intros Hc Hp Hcount.
  assert (Hin : c ∈ existing_conversations u u s)
    by by apply existing_conversations_same_user.
  destruct (select_into (first_row d) (existing_conversations u u s)) as [c'|] eqn:Hsel.
  - pose proof (select_into_Some _ _ _ Hsel) as Hc'.
    apply existing_conversations_same_user in Hc' as (_ & Hp' & Hcount').
    exists c'. split; [done|]. split; [done|].
    by apply find_or_create_conversation_found.
  - apply select_into_None in Hsel. rewrite Hsel in Hin. inversion Hin.
Qed.

(** C8, on the code: user 1 of [db_chat] has no conversation with
    themselves, and still the call with twice user 1 returns normally:
    both joins of the lookup match the one participant row of user 1 in
    conversation 100, whose second row is that of user 2, and the call
    returns 100 whichever row the executor produces first. *)
Theorem same_user_call_returns_other_conversation (d : defaults) :
  (¬ ∃ c, self_conversation 1%N c db_chat) ∧
  (¬ ∃ c, pair_conversation 1%N 1%N c db_chat) ∧
  execute (find_or_create_conversation 1%N 1%N d) db_chat = (inr 100%N, db_chat).
Proof.
  split; [|split].
  - intros (c & Hc & _ & Hall). simpl in Hc.
    apply elem_of_cons in Hc as [-> | ->%list_elem_of_singleton].
    + specialize (Hall (mk_direct_participant 102%N 100%N 2%N 2000%Z)).
      discriminate Hall. apply list_elem_of_further, list_elem_of_here.
    + specialize (Hall (mk_direct_participant 201%N 200%N 2%N 2100%Z)).
      discriminate Hall. apply list_elem_of_here.
  - intros (c & Hc & p1 & p2 & Hperm & Hu1 & Hu2). simpl in Hc.
    apply elem_of_cons in Hc as [-> | ->%list_elem_of_singleton];
      vm_compute in Hperm;
      apply Permutation_length_2_inv in Hperm as [[= -> ->] | [= -> ->]]; done.
  - apply find_or_create_conversation_found.
    change (existing_conversations 1%N 1%N db_chat) with [100%N].
    apply select_into_unique; [apply list_elem_of_here|].
    by intros y ->%list_elem_of_singleton.
Qed.

(** *** C5 *)

(** What a call that returned tells about the database it left. *)
Lemma find_or_create_conversation_returned
    (u1 u2 c : uuid) (d : defaults) (s s' : db) :
  execute (find_or_create_conversation u1 u2 d) s = (inr c, s') →
  (c ∈ existing_conversations u1 u2 s ∧ s' = s) ∨
  (existing_conversations u1 u2 s = [] ∧
   c = new_conversation_uuid d ∧ s' = with_new_conversation u1 u2 d s ∧
   (new_conversation_uuid d ∉ dc_id <$> direct_conversations s) ∧ u1 ≠ u2).
Proof.
  destruct (select_into (first_row d) (existing_conversations u1 u2 s)) as [c0|] eqn:Hsel.
  - rewrite (find_or_create_conversation_found _ _ c0) by done.
    intros [= <- <-]. left. split; [|done]. by apply (select_into_Some (first_row d)).
  - apply select_into_None in Hsel.
    rewrite find_or_create_conversation_not_found by done.
    destruct (create_conversation_cases u1 u2 d s) as [(-> & Hnew & Hne) | [e ->]];
      [|done].
    intros [= <- <-]. by right.
Qed.

(** After a call returned [c] from a database with at most one
    conversation of the pair, the lookup has the rows of [c] and no
    others. *)
Lemma lookup_after_return (u1 u2 c : uuid) (d : defaults) (s s' : db) :
  u1 ≠ u2 → participants_fkey s → at_most_one_pair_conversation u1 u2 s →
  execute (find_or_create_conversation u1 u2 d) s = (inr c, s') →
  ∀ x, x ∈ existing_conversations u1 u2 s' ↔ x = c.
Proof.
  intros Hne Hfk Hone
    [[Hc ->] | (Hnil & -> & -> & Hnew & _)]%find_or_create_conversation_returned.
  - intros x. split; [|by intros ->].
    intros Hx. by apply (lookup_choice_irrelevant u1 u2 x c s).
  - assert (Hold : ∀ x, ¬ pair_conversation u1 u2 x s).
    { intros x Hx%existing_conversations_pair; [|done].
      rewrite Hnil in Hx. inversion Hx. }
    intros x. rewrite existing_conversations_pair, pair_conversation_with_new by done.
    split; [intros [[_ Hx] | [-> _]]; [by apply Hold in Hx | done] | intros ->; auto].
Qed.

Lemma db_two_users_at_most_one (u1 u2 : uuid) :
  at_most_one_pair_conversation u1 u2 db_two_users.
Proof. intros c c' Hc. exfalso. apply (db_two_users_no_pair u1 u2). eauto. Qed.

(** C5, as the code has it. After a call for two different users, made
    when at most one conversation of exactly these two existed, returned
    [c], every later call for the same two users, in either order and
    whichever row the executor produces first, returns [c] and leaves the
    database as it is. *)
Theorem find_or_create_conversation_idempotent
    (u1 u2 c : uuid) (d : defaults) (s s' : db) (calls : list call) :
  u1 ≠ u2 → participants_fkey s → at_most_one_pair_conversation u1 u2 s →
  execute (find_or_create_conversation u1 u2 d) s = (inr c, s') →
  Forall (λ k, match k with
               | Call a b _ => (a = u1 ∧ b = u2) ∨ (a = u2 ∧ b = u1)
               end) calls →
  execute_calls calls s' = (replicate (length calls) (inr c), s').
Proof.
  intros Hne Hfk Hone Hexec Hcalls.
  pose proof (lookup_after_return _ _ _ _ _ _ Hne Hfk Hone Hexec) as Hrows.
  induction Hcalls as [|[a b d'] calls Hab _ IH]; [done|]. simpl.
  assert (Hcall : execute (find_or_create_conversation a b d') s' = (inr c, s')).
  { apply find_or_create_conversation_found.
    assert (Hsame : existing_conversations a b s' = existing_conversations u1 u2 s').
    { destruct Hab as [[-> ->] | [-> ->]]; [done | apply existing_conversations_sym]. }
    rewrite Hsame. apply select_into_unique; [by apply Hrows|].
    intros y. apply Hrows. }
  by rewrite Hcall, IH.
Qed.

(** From [db_two_users]: the first call creates conversation 100, the two
    later ones return it. *)
Lemma find_or_create_conversation_idempotent_witness :
  execute_calls [Call 2%N 1%N defaults_b; Call 1%N 2%N defaults_b]
    (with_new_conversation 1%N 2%N defaults_a db_two_users) =
  ([inr 100%N; inr 100%N], with_new_conversation 1%N 2%N defaults_a db_two_users).
Proof.
  apply (find_or_create_conversation_idempotent 1%N 2%N 100%N defaults_a db_two_users).
  - done.
  - apply db_two_users_fkey.
  - apply db_two_users_at_most_one.
  - reflexivity.
  - apply Forall_cons. split; [by right|].
    apply Forall_cons. split; [by left|]. apply Forall_nil_2.
Defined.

(** C5, as stated, fails: in [db_after_race] users 1 and 2 have the two
    conversations 100 and 200.  A call for (1, 2) returns 100 when the
    executor produces that row first, and a later call for (2, 1) returns
    200 when it produces the other one first. *)
Lemma find_or_create_conversation_idempotent_counterexample :
  participants_fkey db_after_race ∧
  execute (find_or_create_conversation 1%N 2%N (mk_defaults 300%N 301%N 302%N 7000%Z 0))
          db_after_race = (inr 100%N, db_after_race) ∧
  execute_calls [Call 2%N 1%N (mk_defaults 400%N 401%N 402%N 8000%Z 1)] db_after_race =
    ([inr 200%N], db_after_race).
Proof.
  split; [|done].
  intros p Hp. simpl in *.
  repeat (apply elem_of_cons in Hp as [-> | Hp]; [set_solver|]). inversion Hp.
Qed.

(** *** C6 *)

(** One call keeps the foreign key and keeps at most one conversation per
    pair of different users. *)
Lemma call_keeps_one_conversation
    (u1 u2 a b : uuid) (d : defaults) (s : db) :
  u1 ≠ u2 → participants_fkey s → at_most_one_pair_conversation u1 u2 s →
  let s' := (execute (find_or_create_conversation a b d) s).2 in
  participants_fkey s' ∧ at_most_one_pair_conversation u1 u2 s'.
Proof.
  intros Hne Hfk Hone.
  destruct (execute (find_or_create_conversation a b d) s) as [[e|c] s'] eqn:Hexec;
    simpl.
  { unfold execute in Hexec. destruct (find_or_create_conversation a b d s) as [?|[??]];
      by simplify_eq. }
  apply find_or_create_conversation_returned
    in Hexec as [[_ ->] | (Hsel & -> & -> & Hnew & Hab)]; [done|].
  split; [by apply participants_fkey_with_new|].
  assert (Hold : ∀ x, pair_conversation u1 u2 x s →
                      ¬ ((u1 = a ∧ u2 = b) ∨ (u1 = b ∧ u2 = a))).
  { intros x Hx Hsame.
    assert (Hin : x ∈ existing_conversations a b s).
    { apply existing_conversations_pair; [done|].
      destruct Hsame as [[<- <-] | [<- <-]]; [done | by apply pair_conversation_sym]. }
    rewrite Hsel in Hin. inversion Hin. }
  intros x y Hx Hy.
  apply pair_conversation_with_new in Hx as [[_ Hx] | [-> Hx]]; [| |done..];
    apply pair_conversation_with_new in Hy as [[_ Hy] | [-> Hy]]; try done.
  - by apply Hone.
  - by apply Hold in Hx.
  - by apply Hold in Hy.
Qed.

(** C6, as the code has it. Calls that run one after the other, for
    whatever users, keep at most one conversation for a pair of different
    users when they start from a database with at most one. *)
Theorem sequential_calls_keep_one_conversation
    (u1 u2 : uuid) (calls : list call) (s : db) :
  u1 ≠ u2 → participants_fkey s → at_most_one_pair_conversation u1 u2 s →
  at_most_one_pair_conversation u1 u2 (execute_calls calls s).2.
Proof.
  intros Hne. revert s. induction calls as [|[a b d] calls IH]; intros s Hfk Hone;
    [done|].
  simpl.
  destruct (call_keeps_one_conversation u1 u2 a b d s Hne Hfk Hone) as [Hfk' Hone'].
  destruct (execute (find_or_create_conversation a b d) s) as [r s1].
  specialize (IH s1 Hfk' Hone').
  by destruct (execute_calls calls s1) as [rs s2].
Qed.

(** Two calls for users 1 and 2, one after the other. *)
Lemma sequential_calls_keep_one_conversation_witness :
  at_most_one_pair_conversation 1%N 2%N
    (execute_calls [Call 1%N 2%N defaults_a; Call 2%N 1%N defaults_b] db_two_users).2.
Proof.
  apply sequential_calls_keep_one_conversation.
  - done.
  - apply db_two_users_fkey.
  - apply db_two_users_at_most_one.
Defined.

(** A session that runs alone does what the function does. *)
Lemma session_runs_function (a b : uuid) (d : defaults) (s : db) :
  interleave [0; 0] [Called a b d] s =
  ([Returned (execute (find_or_create_conversation a b d) s).1],
   (execute (find_or_create_conversation a b d) s).2).
Proof.
  simpl.
  destruct (select_into (first_row d) (existing_conversations a b s)) as [c|] eqn:Hsel;
    simpl.
  - by rewrite (find_or_create_conversation_found _ _ c).
  - rewrite find_or_create_conversation_not_found by by apply (select_into_None (first_row d)).
    by destruct (execute (create_conversation a b d) s).
Qed.

(** The two sessions of [racing_sessions] one after the other are two
    calls in sequence. *)
Lemma racing_sessions_serial :
  (interleave [0; 0; 1; 1] racing_sessions db_two_users).2 =
  (execute_calls [ Call 1%N 2%N (mk_defaults 100%N 101%N 102%N 5000%Z 0);
                   Call 2%N 1%N (mk_defaults 200%N 201%N 202%N 5001%Z 0) ]
                 db_two_users).2.
Proof. reflexivity. Qed.

(** When both sessions run their lookup before either inserts, they leave
    [db_after_race]. *)
Lemma racing_sessions_interleaved :
  (interleave [0; 1; 0; 1] racing_sessions db_two_users).2 = db_after_race.
Proof. reflexivity. Qed.

(** C6, as stated, fails: when both sessions run their lookup before
    either inserts, both create a conversation for users 1 and 2. *)
Lemma interleaved_calls_counterexample :
  at_most_one_pair_conversation 1%N 2%N db_two_users ∧
  ¬ at_most_one_pair_conversation 1%N 2%N
      (interleave [0; 1; 0; 1] racing_sessions db_two_users).2.
Proof.
  split; [apply db_two_users_at_most_one|].
  intros Hone. specialize (Hone 100%N 200%N).
  discriminate Hone.
  - split; [apply list_elem_of_here|].
    by exists (mk_direct_participant 101%N 100%N 1%N 5000%Z),
              (mk_direct_participant 102%N 100%N 2%N 5000%Z).
  - split; [apply list_elem_of_further, list_elem_of_here|].
    exists (mk_direct_participant 202%N 200%N 1%N 5001%Z),
           (mk_direct_participant 201%N 200%N 2%N 5001%Z).
    split; [apply perm_swap | done].
Qed.

(** * Properties of the client half *)

Import Js.
Local Open Scope string_scope.

(** ** Error messages *)

Lemma handleDatabaseError_not_object (error : value) :
  is_object error = false → handleDatabaseError error = unknown_error_message.
Proof. intros H. unfold handleDatabaseError. by rewrite H. Qed.

(** The message for an object that has a code and a string message is
    never empty. *)
Lemma handleDatabaseError_coded (props : gmap string value) (code : value) (m : string) :
  props !! "code" = Some code → props !! "message" = Some (Str m) →
  handleDatabaseError (Obj props) ≠ "".
Proof.
  intros Hcode Hmsg. unfold handleDatabaseError, has, get. simpl.
  rewrite Hcode, Hmsg. simpl.
  repeat (destruct (strict_eq code _); [done|]).
  destruct (strict_eq code _); [by destruct (includes m _)|].
  simpl. done.
Qed.

Lemma handleDatabaseError_empty (error : value) :
  handleDatabaseError error = "" ↔
  ∃ props, error = Obj props ∧ props !! "code" = None ∧
           props !! "message" = Some (Str "").
Proof.
  split.
  - destruct error as [| | | | |props]; try done. intros Hempty.
    exists props. split; [done|].
    destruct (props !! "message") as [[| | | |m|]|] eqn:Hmsg;
      try (revert Hempty; unfold handleDatabaseError, has, get; simpl;
           rewrite Hmsg; simpl; rewrite ?andb_false_r; simpl; done).
    destruct (props !! "code") as [code|] eqn:Hcode.
    { by destruct (handleDatabaseError_coded props code m). }
    split; [done|]. revert Hempty.
    unfold handleDatabaseError, has, get. simpl. rewrite Hcode, Hmsg. simpl.
    case_match; [done|]. by intros ->.
  - intros (props & -> & Hcode & Hmsg).
    unfold handleDatabaseError, has, get. simpl. by rewrite Hcode, Hmsg.
Qed.

Lemma isTableNotFoundError_true (error : value) :
  isTableNotFoundError error = true ↔
  ∃ props, error = Obj props ∧
    (props !! "code" = Some (Str "42P01") ∨
     (props !! "code" = None ∧
      ∃ m, props !! "message" = Some (Str m) ∧
           includes m "relation" = true ∧ includes m "does not exist" = true)).
Proof.
  destruct error as [| | | | |props];
    try (split; [done | by intros (? & ? & _)]).
  unfold isTableNotFoundError, has, get. simpl.
  destruct (props !! "code") as [code|] eqn:Hcode; simpl.
  - split.
    + destruct code as [| | | |c|]; try done. simpl.
      intros ->%String.eqb_eq. eauto.
    + intros (? & [= <-] & [Hc | [Hc _]]); [|by rewrite Hcode in Hc].
      rewrite Hcode in Hc. by simplify_eq.
  - destruct (props !! "message") as [[| | | |m|]|] eqn:Hmsg; simpl;
      try (split; [done | intros (? & [= <-] & [Hc | (_ & ? & Hm & _)]);
                          [by rewrite Hcode in Hc | by rewrite Hmsg in Hm]]).
    rewrite andb_true_iff. split.
    + intros [??]. eauto 8.
    + intros (? & [= <-] & [Hc | (_ & m' & Hm & ? & ?)]); [by rewrite Hcode in Hc|].
      rewrite Hmsg in Hm. by simplify_eq.
Qed.

(** C10, as the code has it. [handleDatabaseError] returns a string for
    every input: the unknown-error message for whatever is not an object,
    and the empty string only for an object without [code] whose
    [message] is the empty string.  [createErrorWithHelp] appends the
    setup instructions exactly when [isTableNotFoundError] holds, that is
    for an object whose [code] is '42P01', or that has no [code] and a
    string [message] containing both 'relation' and 'does not exist'. *)
Theorem error_messages (error : value) :
  (is_object error = false → handleDatabaseError error = unknown_error_message) ∧
  (handleDatabaseError error = "" ↔
   ∃ props, error = Obj props ∧ props !! "code" = None ∧
            props !! "message" = Some (Str "")) ∧
  (if isTableNotFoundError error
   then createErrorWithHelp error = handleDatabaseError error +:+ setup_instructions
   else createErrorWithHelp error = handleDatabaseError error ∨
        createErrorWithHelp error = handleDatabaseError error +:+ recursion_help) ∧
  (isTableNotFoundError error = true ↔
   ∃ props, error = Obj props ∧
     (props !! "code" = Some (Str "42P01") ∨
      (props !! "code" = None ∧
       ∃ m, props !! "message" = Some (Str m) ∧
            includes m "relation" = true ∧ includes m "does not exist" = true))).
Proof.
  split; [apply handleDatabaseError_not_object|].
  split; [apply handleDatabaseError_empty|].
  split; [|apply isTableNotFoundError_true].
  unfold createErrorWithHelp.
  destruct (isTableNotFoundError error); [done|].
  destruct (isRecursionError error); auto.
Qed.

(** [null] is no object: it gets the unknown-error message. *)
Lemma error_messages_witness : handleDatabaseError Null = unknown_error_message.
Proof. apply (error_messages Null). reflexivity. Defined.

(** C10, as stated, fails twice: an error without code whose message is
    empty gets the empty string; and an error with another code whose
    message contains 'relation' and 'does not exist' is not a
    table-not-found error and gets no instructions. *)
Lemma error_messages_counterexample :
  handleDatabaseError error_empty_message = "" ∧
  (get "message" error_other_code = Str "relation does not exist" ∧
   includes "relation does not exist" "relation" = true ∧
   includes "relation does not exist" "does not exist" = true ∧
   isTableNotFoundError error_other_code = false ∧
   createErrorWithHelp error_other_code = "Database error: relation does not exist").
Proof. by vm_compute. Qed.

(** ** Message validation *)

Section validation_facts.
Variables is_uuid is_email : string → bool.
Variable now_iso : string.
Variable current_room_id : value.

(** The fallback object has the six fields and no other; each holds
    the row's value when that is truthy and the default otherwise. *)
Lemma message_defaults_fields (row : value) :
  is_object row = true →
  ∃ out, message_defaults now_iso current_room_id row = Some (Obj out) ∧
    out !! "id" = Some (or_else (get "id" row) (Str "")) ∧
    out !! "content" = Some (or_else (get "content" row) (Str "")) ∧
    out !! "created_at" = Some (or_else (get "created_at" row) (Str now_iso)) ∧
    out !! "user_id" = Some (or_else (get "user_id" row) (Str "")) ∧
    out !! "user_email" =
      Some (or_else (get "user_email" row) (Str "unknown@example.com")) ∧
    out !! "room_id" = Some (or_else (get "room_id" row) current_room_id) ∧
    dom out = {[ "id"; "content"; "created_at"; "user_id"; "user_email"; "room_id" ]}.
Proof.
  destruct row as [| | | | |props]; try done. intros _.
  eexists. split; [done|]. simpl.
  repeat (split; [by simplify_map_eq|]).
  rewrite !dom_insert_L, dom_empty_L. set_solver.
Qed.

Lemma validate_message_object (row : value) :
  is_object row = true →
  ∃ v, validate_message is_uuid is_email now_iso current_room_id row = Some v ∧
       match MessageSchema_parse is_uuid is_email row with
       | Some parsed => v = parsed
       | None => message_defaults now_iso current_room_id row = Some v
       end.
Proof.
  intros Hrow. unfold validate_message.
  destruct (MessageSchema_parse is_uuid is_email row) as [parsed|]; [eauto|].
  destruct (message_defaults_fields row Hrow) as (out & -> & _). eauto.
Qed.

(** C7, as the code has it. For rows that are objects the validation
    never fails; it yields one message per row, in order: the parsed
    row when [MessageSchema] accepts it, and otherwise an object of
    exactly the six fields in which a value of the row is kept when it
    is truthy and replaced by its default when it is absent or falsy
    ([undefined], [null], the empty string, 0, [false]). *)
Theorem validate_messages_total (data : list value) :
  Forall (λ row, is_object row = true) data →
  ∃ validatedMessages,
    validate_messages is_uuid is_email now_iso current_room_id data =
      SetMessages validatedMessages ∧
    length validatedMessages = length data ∧
    ∀ i row, data !! i = Some row →
      ∃ v, validatedMessages !! i = Some v ∧
        match MessageSchema_parse is_uuid is_email row with
        | Some parsed => v = parsed
        | None =>
          ∃ out, v = Obj out ∧
            out !! "id" = Some (or_else (get "id" row) (Str "")) ∧
            out !! "content" = Some (or_else (get "content" row) (Str "")) ∧
            out !! "created_at" = Some (or_else (get "created_at" row) (Str now_iso)) ∧
            out !! "user_id" = Some (or_else (get "user_id" row) (Str "")) ∧
            out !! "user_email" =
              Some (or_else (get "user_email" row) (Str "unknown@example.com")) ∧
            out !! "room_id" = Some (or_else (get "room_id" row) current_room_id) ∧
            dom out =
              {[ "id"; "content"; "created_at"; "user_id"; "user_email"; "room_id" ]}
        end.
Proof.
  intros Hrows. unfold validate_messages.
  destruct (mapM (validate_message is_uuid is_email now_iso current_room_id) data)
    as [validated|] eqn:Hmap.
  - exists validated. split; [done|].
    apply mapM_Some_1 in Hmap. split; [symmetry; by eapply Forall2_length|].
    intros i row Hi.
    destruct (Forall2_lookup_l _ _ _ _ _ Hmap Hi) as (v & Hv & Hval).
    exists v. split; [done|].
    assert (Hrow : is_object row = true)
      by (eapply Forall_lookup_1 in Hrows; [exact Hrows | exact Hi]).
    destruct (validate_message_object row Hrow) as (v' & Hv' & Hcase).
    rewrite Hval in Hv'. injection Hv' as <-.
    destruct (MessageSchema_parse is_uuid is_email row); [done|].
    destruct (message_defaults_fields row Hrow) as (out & Hout & Hfields).
    exists out. split; [congruence | done].
  - exfalso.
    destruct (mapM_is_Some_2 (validate_message is_uuid is_email now_iso
                                current_room_id) data) as [? Hsome]; [|congruence].
    eapply Forall_impl; [exact Hrows|]. intros row Hrow. simpl.
    destruct (validate_message_object row Hrow) as (v & -> & _). eauto.
Qed.

(** A row that is [null] makes the whole validation fail. *)
Lemma validate_messages_null (before after : list value) :
  validate_messages is_uuid is_email now_iso current_room_id
    (before ++ Null :: after) = SetError "Message data validation error".
Proof.
  unfold validate_messages.
  destruct (mapM _ _) as [validated|] eqn:Hmap; [|done]. exfalso.
  apply mapM_Some_1, Forall2_app_inv_l in Hmap as (? & ? & _ & Hnull & _).
  inversion Hnull as [|???? Hfail]. discriminate Hfail.
Qed.
End validation_facts.

(** One malformed row: the validation yields one message. *)
Lemma validate_messages_total_witness :
  ∃ validatedMessages,
    validate_messages lenient lenient "2024-01-02T00:00:00Z" (Str "r1")
      [Obj row_zero_content] = SetMessages validatedMessages ∧
    length validatedMessages = 1.
Proof.
  destruct (validate_messages_total lenient lenient "2024-01-02T00:00:00Z" (Str "r1")
              [Obj row_zero_content]) as (validated & Hrun & Hlen & _).
  - apply Forall_cons. split; [reflexivity | apply Forall_nil_2].
  - exists validated. split; [exact Hrun | exact Hlen].
Defined.

(** With no error and some rows, [fetchMessages] is the validation. *)
Lemma fetchMessages_rows (is_uuid is_email : string → bool) (now_iso : string)
    (current_room_id : value) (data : list value) :
  fetchMessages is_uuid is_email now_iso current_room_id (Some data) Null =
  validate_messages is_uuid is_email now_iso current_room_id data.
Proof. done. Qed.

(** C7, as stated, fails: [row_zero_content] has every field, none
    [null], and is rejected by the schema whatever the formats (its
    content is a number); the fallback replaces its content 0 and its
    empty e-mail by the defaults, where filling in the missing fields
    would keep both. *)
Lemma validate_messages_counterexample :
  MessageSchema_parse lenient lenient (Obj row_zero_content) = None ∧
  row_zero_content !! "content" = Some (Num 0) ∧
  row_zero_content !! "user_email" = Some (Str "") ∧
  fill_missing "2024-01-02T00:00:00Z" (Str "r1") row_zero_content = row_zero_content ∧
  ∃ out,
    validate_messages lenient lenient "2024-01-02T00:00:00Z" (Str "r1")
      [Obj row_zero_content] = SetMessages [Obj out] ∧
    out !! "content" = Some (Str "") ∧
    out !! "user_email" = Some (Str "unknown@example.com") ∧
    out ≠ fill_missing "2024-01-02T00:00:00Z" (Str "r1") row_zero_content.
Proof.
  split; [by vm_compute|]. split; [by vm_compute|]. split; [by vm_compute|].
  split; [by vm_compute|].
  eexists. split; [by vm_compute|]. split; [by vm_compute|]. split; [by vm_compute|].
  intros Heq. apply (f_equal (λ m : gmap string value, m !! "content")) in Heq.
  vm_compute in Heq. discriminate Heq.
Qed.

(** * Further properties of the database half *)

Local Open Scope list_scope.

(** ** Which statements pass the rewriter *)

Lemma row_security_cases (schema : list policy) (c : command) (r : relation) (s : db) :
  (row_security schema c r s = inl invalid_object_definition ↔
   infinite_recursion (length relations) schema [] c r = true) ∧
  (row_security schema c r s = inr (tt, s) ↔
   infinite_recursion (length relations) schema [] c r = false).
Proof. unfold row_security. by destruct (infinite_recursion _ _ _ _ _). Qed.

(** X22. With the policies of the migrations, a SELECT or INSERT of a
    client raises 42P17 exactly when a policy for that command on that
    table holds a subquery, whatever the caller and the rows; the
    statements that get past the rewriter are SELECT and INSERT on
    [profiles] and INSERT on [rooms], [room_members],
    [direct_conversations] and [direct_participants]. *)
Theorem statements_with_subquery_raise (c : command) (r : relation) (s : db) :
  (row_security migrations c r s = inl invalid_object_definition ↔
   sublink_tables migrations c r ≠ []) ∧
  (row_security migrations c r s = inr (tt, s) ↔
   (c, r) ∈ [ (Select, Profiles); (Insert, Profiles); (Insert, Rooms);
              (Insert, Room_members); (Insert, Direct_conversations);
              (Insert, Direct_participants) ]).
Proof.
  destruct (row_security_cases migrations c r s) as [-> ->].
  rewrite <- (bool_decide_spec (_ ∈ _)), <- (bool_decide_spec (_ ≠ _)).
  destruct c, r; vm_compute; split; split; done.
Qed.

(** X21. [reset_and_rebuild_fixed.sql] does not remove the recursion:
    under its policies every SELECT or INSERT of a client ends in the
    rewriter as it does under the migrations, and it raises 42P17 exactly
    when a policy for it holds a subquery. *)
Theorem rebuilt_schema_still_recursive (c : command) (r : relation) (s : db) :
  row_security rebuilt c r s = row_security migrations c r s ∧
  (row_security rebuilt c r s = inl invalid_object_definition ↔
   sublink_tables rebuilt c r ≠ []).
Proof.
  split; [by destruct c, r|].
  destruct (row_security_cases rebuilt c r s) as [-> _].
  rewrite <- (bool_decide_spec (_ ≠ _)).
  destruct c, r; vm_compute; split; done.
Qed.

(** ** Reading room messages *)

(** X1. The policy FOR SELECT on [messages] asks [rooms] and
    [room_members], which ask each other: for every caller and every
    database a SELECT on [messages] raises 42P17 and returns no row. *)
Theorem room_messages_unreadable (auth_uid : option uuid) (s : db) :
  execute (select_messages auth_uid) s = (inl invalid_object_definition, s).
Proof. by apply select_from_raises. Qed.

(** ** Joining a room *)

Lemma room_members_insert_policy_true
    (auth_uid : option uuid) (s : db) (new : room_member) :
  room_members_insert_policy auth_uid s new = true ↔ auth_uid = Some (rm_user_id new).
Proof.
  unfold room_members_insert_policy. rewrite sql_is_true_eq. split.
  - by intros (u & [= <-] & ->).
  - intros ->. eauto.
Qed.

(** X3. The INSERT policy on [room_members] accepts a row exactly when its
    [user_id] is the caller; a row for somebody else, or from an
    unauthenticated caller, is rejected and the database stays as it is. *)
Theorem room_members_insert_guarded
    (auth_uid : option uuid) (s : db) (new : room_member) :
  (room_members_insert_policy auth_uid s new = true ↔ auth_uid = Some (rm_user_id new)) ∧
  (auth_uid ≠ Some (rm_user_id new) →
   execute (insert_room_member auth_uid new) s = (inl insufficient_privilege, s)).
Proof.
  split; [apply room_members_insert_policy_true|].
  intros Hne. apply execute_raises. unfold insert_room_member.
  rewrite row_security_passes by done.
  apply pg_check_raises. apply not_true_is_false.
  by rewrite room_members_insert_policy_true.
Qed.

(** User 1 cannot enrol user 3 in room 11 of [db_chat]. *)
Lemma room_members_insert_guarded_witness :
  execute (insert_room_member (Some 1%N) (mk_room_member 21%N 11%N 3%N 1300%Z)) db_chat =
  (inl insufficient_privilege, db_chat).
Proof. by apply room_members_insert_guarded. Defined.

(** X4. Any registered user can enrol themselves in any stored room,
    private ones included: with an unused row id and no earlier
    membership the INSERT into [room_members] succeeds and appends the
    row. *)
Theorem self_enrolment_succeeds (u : uuid) (r : room) (new : room_member) (s : db) :
  r ∈ rooms s → u ∈ auth_users s →
  rm_user_id new = u → rm_room_id new = room_id r →
  rm_id new ∉ (rm_id <$> room_members s) →
  ¬ has_membership u (room_id r) s →
  execute (insert_room_member (Some u) new) s =
  (inr tt, with_room_members (λ t, t ++ [new]) s).
Proof.
  intros Hr Hu Hnu Hnr Hid Hnot.
  apply execute_returns. unfold insert_room_member.
  rewrite row_security_passes by done.
  rewrite pg_check_passes
    by (apply room_members_insert_policy_true; by rewrite Hnu).
  rewrite pg_check_passes by by apply bool_decide_eq_true.
  rewrite pg_check_passes.
  2:{ apply bool_decide_eq_true. intros (q & [= Hq1 Hq2] & Hq)%list_elem_of_fmap_1.
      apply Hnot. exists q. split; [done|]. split; congruence. }
  rewrite pg_update_then.
  rewrite pg_check_passes
    by (apply bool_decide_eq_true; rewrite Hnr; by apply list_elem_of_fmap_2).
  unfold pg_check. rewrite bool_decide_true; [done|]. by rewrite Hnu.
Qed.

(** User 3 enrols in the private room 11 of [db_chat]. *)
Lemma self_enrolment_succeeds_witness :
  execute (insert_room_member (Some 3%N) (mk_room_member 21%N 11%N 3%N 1300%Z)) db_chat =
  (inr tt, with_room_members (λ t, t ++ [mk_room_member 21%N 11%N 3%N 1300%Z]) db_chat).
Proof.
  apply (self_enrolment_succeeds 3%N (mk_room 11%N "Staff" None 1%N (Some true) 1100%Z)
           (mk_room_member 21%N 11%N 3%N 1300%Z) db_chat).
  - apply list_elem_of_further, list_elem_of_here.
  - apply list_elem_of_further, list_elem_of_further, list_elem_of_here.
  - reflexivity.
  - reflexivity.
  - intros H. apply list_elem_of_singleton in H. done.
  - intros (m & Hm & _ & Hmu). apply list_elem_of_singleton in Hm as ->. done.
Defined.

(** ** Reading the member lists *)

(** X5. "Users can see other members in their rooms" asks [rooms], whose
    policy asks [room_members] again: a SELECT on [room_members] raises
    42P17 for every caller and every database, before the expressions of
    the two policies are looked at.  So a caller does not get even the rows
    of their own that "Users can view their own room memberships" is there
    to return. *)
Theorem member_lists_unreadable (qual : db → room_member → bool) (s : db) :
  execute (select_from migrations Room_members room_members qual) s =
  (inl invalid_object_definition, s).
Proof. by apply select_from_raises. Qed.

(** ** Sending a direct message *)

Lemma insert_direct_message_refused
    (auth_uid : option uuid) (new : direct_message) (now : timestamptz) (s : db) :
  execute (insert_direct_message auth_uid new now) s = (inl invalid_object_definition, s).
Proof. by apply row_security_raises. Qed.

(** X6. The policy FOR INSERT on [direct_messages] asks
    [direct_participants], whose policy FOR SELECT asks
    [direct_participants] again: for every caller and row an INSERT into
    [direct_messages] raises 42P17 and leaves the database as it was; no
    message is stored, the trigger does not run and no [updated_at]
    moves. *)
Theorem sending_direct_message_raises
    (auth_uid : option uuid) (new : direct_message) (now : timestamptz) (s : db) :
  execute (insert_direct_message auth_uid new now) s = (inl invalid_object_definition, s).
Proof. apply insert_direct_message_refused. Qed.

(** ** Joining a conversation *)

Lemma insert_direct_participant_returned
    (auth_uid : option uuid) (new : direct_participant) (s s' : db) :
  execute (insert_direct_participant auth_uid new) s = (inr tt, s') →
  s' = with_direct_participants (λ t, t ++ [new]) s ∧
  auth_uid = Some (dp_user_id new) ∧
  (dp_id new ∉ dp_id <$> direct_participants s) ∧
  ((dp_conversation_id new, dp_user_id new) ∉
   (λ q, (dp_conversation_id q, dp_user_id q)) <$> direct_participants s) ∧
  (dp_conversation_id new ∈ dc_id <$> direct_conversations s) ∧
  dp_user_id new ∈ auth_users s.
Proof.
  unfold execute, insert_direct_participant. rewrite row_security_passes by done.
  unfold insert_direct_participant_row,
    check_direct_participant_fkeys, pg_bind, pg_check, pg_update.
  destruct (participants_insert_policy auth_uid s new) eqn:Hpol; [|done].
  repeat (case_bool_decide; simpl; [|done]).
  intros [= <-]. split; [done|]. split; [|done].
  unfold participants_insert_policy in Hpol.
  by apply sql_is_true_eq in Hpol as (u & [= <-] & ->).
Qed.

Lemma participants_of_with_row (x : uuid) (new : direct_participant) (s : db) :
  participants_of x (with_direct_participants (λ t, t ++ [new]) s) =
  participants_of x s ++ (if decide (dp_conversation_id new = x) then [new] else []).
Proof.
  unfold participants_of. simpl. by rewrite filter_app.
Qed.

(** X8. Any registered user can add a participant row for themselves to
    any existing conversation, one of two other users included: with an
    unused row id and no earlier row of theirs the INSERT into
    [direct_participants] succeeds and appends the row. *)
Theorem self_join_conversation_succeeds
    (u : uuid) (new : direct_participant) (s : db) :
  dp_user_id new = u → u ∈ auth_users s →
  dp_conversation_id new ∈ (dc_id <$> direct_conversations s) →
  dp_id new ∉ (dp_id <$> direct_participants s) →
  ¬ is_participant u (dp_conversation_id new) s →
  execute (insert_direct_participant (Some u) new) s =
  (inr tt, with_direct_participants (λ t, t ++ [new]) s).
Proof.
  intros <- Hreg Hconv Hid Hnot.
  apply execute_returns.
  unfold insert_direct_participant. rewrite row_security_passes by done.
  unfold insert_direct_participant_row, check_direct_participant_fkeys.
  rewrite pg_check_passes.
  2:{ unfold participants_insert_policy. apply sql_is_true_eq. eauto. }
  unfold pg_bind at 1. rewrite pg_check_passes by by apply bool_decide_eq_true.
  rewrite pg_check_passes.
  2:{ apply bool_decide_eq_true. intros (q & [= Hq1 Hq2] & Hq)%list_elem_of_fmap_1.
      apply Hnot. exists q. split; [done|]. split; congruence. }
  unfold pg_update. rewrite pg_check_passes by by apply bool_decide_eq_true.
  unfold pg_check. by rewrite bool_decide_true.
Qed.

(** User 1 of [db_chat] joins conversation 200 of users 2 and 3. *)
Lemma self_join_conversation_succeeds_witness :
  execute (insert_direct_participant (Some 1%N)
             (mk_direct_participant 203%N 200%N 1%N 2500%Z)) db_chat =
  (inr tt,
   with_direct_participants
     (λ t, t ++ [mk_direct_participant 203%N 200%N 1%N 2500%Z]) db_chat).
Proof.
  apply (self_join_conversation_succeeds 1%N
           (mk_direct_participant 203%N 200%N 1%N 2500%Z) db_chat).
  - reflexivity.
  - apply list_elem_of_here.
  - apply list_elem_of_further, list_elem_of_here.
  - intros H. simpl in H.
    repeat (apply elem_of_cons in H as [? | H]; [done|]). inversion H.
  - intros (p & Hp & Hu & Hc). simpl in Hp.
    repeat (apply elem_of_cons in Hp as [-> | Hp]; [done|]). inversion Hp.
Defined.

(** X9. Once a further participant row was inserted into the one
    conversation of two users, the function no longer finds it: the next
    call for the two users creates a second conversation. *)
Theorem extra_participant_defeats_lookup
    (u1 u2 c : uuid) (auth_uid : option uuid) (new : direct_participant)
    (d : defaults) (s s1 : db) :
  u1 ≠ u2 → participants_fkey s →
  at_most_one_pair_conversation u1 u2 s → pair_conversation u1 u2 c s →
  dp_conversation_id new = c →
  execute (insert_direct_participant auth_uid new) s = (inr tt, s1) →
  fresh_defaults d s1 → u1 ∈ auth_users s → u2 ∈ auth_users s →
  execute (find_or_create_conversation u1 u2 d) s1 =
    (inr (new_conversation_uuid d), with_new_conversation u1 u2 d s1) ∧
  new_conversation_uuid d ≠ c.
Proof.
  intros Hne Hfk Hone Hpair Hc (-> & _ & _ & _ & Hin & _)%insert_direct_participant_returned
    Hfresh Hu1 Hu2.
  assert (Hfk1 : participants_fkey (with_direct_participants (λ t, t ++ [new]) s)).
  { intros p. simpl. rewrite elem_of_app, list_elem_of_singleton.
    intros [Hp | ->]; [by apply Hfk | done]. }
  assert (Hnone : ∀ x, ¬ pair_conversation u1 u2 x
                           (with_direct_participants (λ t, t ++ [new]) s)).
  { intros x (Hx & p1 & p2 & Hperm & Hp1 & Hp2).
    rewrite participants_of_with_row in Hperm. simpl in Hx.
    destruct (decide (dp_conversation_id new = x)) as [Heq | Hneq].
    - destruct Hpair as (_ & q1 & q2 & Hq & _). rewrite <- Heq, Hc, Hq in Hperm.
      apply Permutation_length in Hperm. done.
    - rewrite app_nil_r in Hperm. apply Hneq. rewrite Hc. apply Hone; [done|].
      split; [done|]. eauto. }
  split.
  - rewrite find_or_create_conversation_not_found.
    + by apply create_conversation_succeeds.
    + destruct (existing_conversations u1 u2 _) as [|x l] eqn:Hl; [done|]. exfalso.
      apply (Hnone x), existing_conversations_pair; [done|].
      rewrite Hl. apply list_elem_of_here.
  - destruct Hfresh as [Hnew _]. intros Heq. apply Hnew. simpl. rewrite Heq.
    by destruct Hpair.
Qed.

(** User 3 joins conversation 100 of users 1 and 2 in [db_chat]; the next
    call for users 1 and 2 creates conversation 500. *)
Lemma extra_participant_defeats_lookup_witness :
  execute (find_or_create_conversation 1%N 2%N (mk_defaults 500%N 501%N 502%N 7000%Z 0))
    (with_direct_participants
       (λ t, t ++ [mk_direct_participant 103%N 100%N 3%N 2500%Z]) db_chat) =
  (inr 500%N,
   with_new_conversation 1%N 2%N (mk_defaults 500%N 501%N 502%N 7000%Z 0)
     (with_direct_participants
        (λ t, t ++ [mk_direct_participant 103%N 100%N 3%N 2500%Z]) db_chat)).
Proof.
  assert (Hpair : ∀ x, pair_conversation 1%N 2%N x db_chat → x = 100%N).
  { intros x (Hx & p1 & p2 & Hperm & H1 & H2). simpl in Hx.
    apply elem_of_cons in Hx as [-> | ->%list_elem_of_singleton]; [done|].
    vm_compute in Hperm.
    apply Permutation_length_2_inv in Hperm as [[= -> ->] | [= -> ->]]; done. }
  destruct (extra_participant_defeats_lookup 1%N 2%N 100%N (Some 3%N)
              (mk_direct_participant 103%N 100%N 3%N 2500%Z)
              (mk_defaults 500%N 501%N 502%N 7000%Z 0) db_chat
              (with_direct_participants
                 (λ t, t ++ [mk_direct_participant 103%N 100%N 3%N 2500%Z]) db_chat))
    as [Hcall _]; [..|exact Hcall].
  - done.
  - intros p Hp. simpl in Hp.
    repeat (apply elem_of_cons in Hp as [-> | Hp];
            [first [apply list_elem_of_here
                   | apply list_elem_of_further, list_elem_of_here]|]).
    inversion Hp.
  - intros x y Hx%Hpair Hy%Hpair. congruence.
  - split; [apply list_elem_of_here|].
    by exists (mk_direct_participant 101%N 100%N 1%N 2000%Z),
              (mk_direct_participant 102%N 100%N 2%N 2000%Z).
  - reflexivity.
  - reflexivity.
  - repeat split; simpl; try done; intros H;
      repeat (apply elem_of_cons in H as [? | H]; [done|]); inversion H.
  - apply list_elem_of_here.
  - apply list_elem_of_further, list_elem_of_here.
Defined.

(** ** What the function returns *)

(** X10. Whatever the arguments, an id the call returns is the id of a
    stored conversation that has exactly two participant rows and in which
    both arguments have a participant row. *)
Theorem returned_conversation_is_stored (u1 u2 c : uuid) (d : defaults) (s s' : db) :
  participants_fkey s →
  execute (find_or_create_conversation u1 u2 d) s = (inr c, s') →
  c ∈ (dc_id <$> direct_conversations s') ∧
  is_participant u1 c s' ∧ is_participant u2 c s' ∧
  participant_count c s' = 2.
Proof.
  intros Hfk [[Hc ->] | (_ & -> & -> & Hnew & _)]%find_or_create_conversation_returned.
  - apply elem_of_existing_conversations in Hc
      as (Hx & (p1 & [Hp1 Hc1]%elem_of_participants_of & Hu1) &
          (p2 & [Hp2 Hc2]%elem_of_participants_of & Hu2) & Hcount).
    split; [done|]. split; [by exists p1|]. split; [by exists p2 | done].
  - split; [|split; [|split]].
    + simpl. rewrite fmap_app. apply elem_of_app. right. apply list_elem_of_here.
    + exists (mk_direct_participant (participant1_uuid d) (new_conversation_uuid d)
                                     u1 (now d)).
      split; [|done]. simpl. apply elem_of_app. right. apply list_elem_of_here.
    + exists (mk_direct_participant (participant2_uuid d) (new_conversation_uuid d)
                                     u2 (now d)).
      split; [|done]. simpl. apply elem_of_app. right.
      apply list_elem_of_further, list_elem_of_here.
    + unfold participant_count. rewrite participants_of_with_new.
      rewrite participants_of_fresh by done. by rewrite decide_True.
Qed.

(** The conversation created from [db_two_users] is stored with its two
    participant rows. *)
Lemma returned_conversation_is_stored_witness :
  100%N ∈ (dc_id <$> direct_conversations
                       (with_new_conversation 1%N 2%N defaults_a db_two_users)) ∧
  is_participant 1%N 100%N (with_new_conversation 1%N 2%N defaults_a db_two_users) ∧
  is_participant 2%N 100%N (with_new_conversation 1%N 2%N defaults_a db_two_users) ∧
  participant_count 100%N (with_new_conversation 1%N 2%N defaults_a db_two_users) = 2.
Proof.
  apply (returned_conversation_is_stored 1%N 2%N 100%N defaults_a db_two_users).
  - apply db_two_users_fkey.
  - reflexivity.
Defined.

(** ** Calls that fail on a foreign key *)

(** X11. When the lookup finds nothing and one of the two different users
    is not a row of [auth.users], the call raises a foreign-key violation
    and the conversation and participant rows it had inserted are gone:
    the database is as before. *)
Theorem find_or_create_conversation_unknown_user
    (u1 u2 : uuid) (d : defaults) (s : db) :
  u1 ≠ u2 → participants_fkey s → fresh_defaults d s →
  (¬ ∃ c, pair_conversation u1 u2 c s) →
  u1 ∉ auth_users s ∨ u2 ∉ auth_users s →
  execute (find_or_create_conversation u1 u2 d) s = (inl foreign_key_violation, s).
Proof.
  intros Hne Hfk (Hc & Hp1 & Hp2 & Hp12) Hnone Hunknown.
  assert (Hpair : ∀ u, (new_conversation_uuid d, u) ∉
            (λ q, (dp_conversation_id q, dp_user_id q)) <$> direct_participants s).
  { intros u (q & [= Hq _] & Hin)%list_elem_of_fmap_1.
    apply Hc. rewrite Hq. by apply Hfk. }
  assert (Hnew : new_conversation_uuid d ∈
            dc_id <$> direct_conversations s ++
              [mk_direct_conversation (new_conversation_uuid d) (now d) (now d)]).
  { rewrite fmap_app. apply elem_of_app. right. apply list_elem_of_here. }
  rewrite find_or_create_conversation_not_found.
  2:{ destruct (existing_conversations u1 u2 s) as [|x l] eqn:Hl; [done|]. exfalso.
      apply Hnone. exists x. apply existing_conversations_pair; [done|].
      rewrite Hl. apply list_elem_of_here. }
  run_create.
  rewrite (bool_decide_true (new_conversation_uuid d ∉ _)) by done. simpl.
  rewrite (bool_decide_true (participant1_uuid d ∉ _)) by done. simpl.
  rewrite (bool_decide_true ((new_conversation_uuid d, u1) ∉ _)) by done. simpl.
  rewrite (bool_decide_true (participant2_uuid d ∉ _)).
  2:{ rewrite fmap_app, elem_of_app. simpl. rewrite list_elem_of_singleton.
      intros [H | H]; done. }
  simpl. rewrite (bool_decide_true ((new_conversation_uuid d, u2) ∉ _)).
  2:{ rewrite fmap_app, elem_of_app. simpl. rewrite list_elem_of_singleton.
      intros [H | [= H]]; [by eapply Hpair | done]. }
  simpl. rewrite !(bool_decide_true (new_conversation_uuid d ∈ _)) by done. simpl.
  destruct Hunknown as [Hu | Hu].
  - by rewrite (bool_decide_false (u1 ∈ _)).
  - case_bool_decide; [simpl|done].
    rewrite !(bool_decide_true (new_conversation_uuid d ∈ _)) by done. simpl.
    by rewrite (bool_decide_false (u2 ∈ _)).
Qed.

(** User 9 is not registered in [db_two_users]. *)
Lemma find_or_create_conversation_unknown_user_witness :
  execute (find_or_create_conversation 1%N 9%N defaults_a) db_two_users =
  (inl foreign_key_violation, db_two_users).
Proof.
  apply find_or_create_conversation_unknown_user.
  - done.
  - apply db_two_users_fkey.
  - apply defaults_a_fresh.
  - apply db_two_users_no_pair.
  - right. intros H.
    repeat (apply elem_of_cons in H as [? | H]; [done|]). inversion H.
Defined.

(** ** The constraints are kept *)

Lemma execute_raised {A} (m : plpgsql A) (e : sqlstate) (s s' : db) :
  execute m s = (inl e, s') → s' = s.
Proof. unfold execute. destruct (m s) as [?|[??]]; by intros [= ? ?]. Qed.

Lemma create_conversation_returned (u1 u2 c : uuid) (d : defaults) (s s' : db) :
  execute (create_conversation u1 u2 d) s = (inr c, s') →
  s' = with_new_conversation u1 u2 d s ∧
  (new_conversation_uuid d ∉ dc_id <$> direct_conversations s) ∧
  (participant1_uuid d ∉ dp_id <$> direct_participants s) ∧
  (participant2_uuid d ∉ dp_id <$> direct_participants s) ∧
  participant1_uuid d ≠ participant2_uuid d ∧
  ((new_conversation_uuid d, u1) ∉
   (λ q, (dp_conversation_id q, dp_user_id q)) <$> direct_participants s) ∧
  ((new_conversation_uuid d, u2) ∉
   (λ q, (dp_conversation_id q, dp_user_id q)) <$> direct_participants s) ∧
  u1 ≠ u2 ∧ u1 ∈ auth_users s ∧ u2 ∈ auth_users s.
Proof.
  destruct (create_conversation_cases u1 u2 d s) as [(Hok & Hnew & Hne) | [e He]];
    [|by rewrite He].
  rewrite Hok. intros [= _ <-]. split; [done|]. revert Hok. run_create.
  repeat (case_bool_decide as H; simpl; [revert H|done]).
  rewrite !fmap_app, !elem_of_app. simpl. rewrite !list_elem_of_singleton.
  intros Hu2 _ Hu1 _ Hq2 Hp2 Hq1 Hp1 _ _.
  repeat split; try done; try tauto. intros Heq. apply Hp2. by right.
Qed.

Lemma NoDup_snoc {A} (l : list A) (x : A) : NoDup l → x ∉ l → NoDup (l ++ [x]).
Proof.
  intros Hl Hx. apply NoDup_app. split; [done|]. split; [|apply NoDup_singleton].
  intros y Hy ->%list_elem_of_singleton. done.
Qed.

Lemma NoDup_snoc2 {A} (l : list A) (x y : A) :
  NoDup l → x ∉ l → y ∉ l → x ≠ y → NoDup (l ++ [x; y]).
Proof.
  intros Hl Hx Hy Hxy. apply NoDup_app. split; [done|]. split.
  - intros z Hz [-> | ->%list_elem_of_singleton]%elem_of_cons; done.
  - apply NoDup_cons. split; [by rewrite list_elem_of_singleton | apply NoDup_singleton].
Qed.

Lemma constraints_after_create (u1 u2 c : uuid) (d : defaults) (s s' : db) :
  direct_messaging_constraints s →
  execute (create_conversation u1 u2 d) s = (inr c, s') →
  direct_messaging_constraints s'.
Proof.
  intros [Hck Hpk Hpu Hfk Hfu Hmk Hmc Hmu]
    (-> & Hnew & Hp1 & Hp2 & Hp12 & Hq1 & Hq2 & Hne & Hu1 & Hu2)%create_conversation_returned.
  split; simpl.
  - rewrite fmap_app. by apply NoDup_snoc.
  - rewrite fmap_app. simpl. by apply NoDup_snoc2.
  - rewrite fmap_app. simpl. apply NoDup_snoc2; [done..|]. by intros [= ?].
  - by apply participants_fkey_with_new.
  - intros p. rewrite elem_of_app.
    intros [Hp | Hp]; [by apply Hfu|].
    apply elem_of_cons in Hp as [-> | ->%list_elem_of_singleton]; done.
  - done.
  - intros m Hm. rewrite fmap_app. apply elem_of_app. left. by apply Hmc.
  - done.
Qed.

Lemma constraints_after_join (auth_uid : option uuid) (new : direct_participant) (s s' : db) :
  direct_messaging_constraints s →
  execute (insert_direct_participant auth_uid new) s = (inr tt, s') →
  direct_messaging_constraints s'.
Proof.
  intros [Hck Hpk Hpu Hfk Hfu Hmk Hmc Hmu]
    (-> & _ & Hid & Hq & Hc & Hu)%insert_direct_participant_returned.
  split; simpl; try done.
  - rewrite fmap_app. by apply NoDup_snoc.
  - rewrite fmap_app. by apply NoDup_snoc.
  - intros p. simpl. rewrite elem_of_app, list_elem_of_singleton.
    intros [Hp | ->]; [by apply Hfk | done].
  - intros p. rewrite elem_of_app, list_elem_of_singleton.
    intros [Hp | ->]; [by apply Hfu | done].
Qed.

(** X12. Whatever clients do with the three operations on the
    direct-messaging tables (calling the function, inserting a participant
    row, inserting a message), successfully or not, the primary keys, the
    uniqueness of (conversation, user) and the foreign keys of these
    tables hold afterwards if they held before. *)
Theorem operations_keep_constraints (ops : list operation) (s : db) :
  direct_messaging_constraints s →
  direct_messaging_constraints (run_operations ops s).
Proof.
  revert s. induction ops as [|o ops IH]; intros s Hs; [done|].
  unfold run_operations. simpl. apply IH. clear IH.
  destruct o as [u1 u2 d | auth_uid new | auth_uid new now]; cbn [run_operation].
  - destruct (execute (find_or_create_conversation u1 u2 d) s) as [[e|c] s'] eqn:Hexec.
    + by apply execute_raised in Hexec as ->.
    + simpl.
      destruct (select_into (first_row d) (existing_conversations u1 u2 s))
        as [c0|] eqn:Hsel.
      * rewrite (find_or_create_conversation_found _ _ c0) in Hexec by done.
        by injection Hexec as _ <-.
      * apply select_into_None in Hsel.
        rewrite find_or_create_conversation_not_found in Hexec by done.
        by eapply constraints_after_create.
  - destruct (execute (insert_direct_participant auth_uid new) s) as [[e|[]] s'] eqn:Hexec.
    + by apply execute_raised in Hexec as ->.
    + by eapply constraints_after_join.
  - by rewrite insert_direct_message_refused.
Qed.

Lemma db_two_users_constraints : direct_messaging_constraints db_two_users.
Proof.
  split; simpl; try apply NoDup_nil_2; try (intros ? H; inversion H).
Qed.

(** A call, a message by user 1, and a join by an unregistered user, from
    [db_two_users]. *)
Lemma operations_keep_constraints_witness :
  direct_messaging_constraints
    (run_operations
       [ Find_or_create 1%N 2%N defaults_a;
         Send (Some 1%N) (mk_direct_message 300%N 100%N 1%N "hello" 5100%Z) 5100%Z;
         Join (Some 9%N) (mk_direct_participant 103%N 100%N 9%N 5200%Z) ]
       db_two_users).
Proof. apply operations_keep_constraints, db_two_users_constraints. Defined.

(** ** The expressions of the rebuilt policies *)

Lemma room_id_in_my_rooms (auth_uid : option uuid) (s : db) (o : option uuid) :
  sql_is_true (sql_in o (sql_union (public_room_ids s) (my_room_ids auth_uid s))) = true ↔
  ∃ r, o = Some r ∧
       ((∃ x, x ∈ rooms s ∧ room_id x = r ∧ room_is_private x = Some false) ∨
        (∃ u, auth_uid = Some u ∧ has_membership u r s)).
Proof.
  unfold sql_union. rewrite sql_is_true_in.
  setoid_rewrite elem_of_remove_dups. setoid_rewrite elem_of_app.
  setoid_rewrite elem_of_public_room_ids. setoid_rewrite elem_of_my_room_ids.
  done.
Qed.

Lemma sql_is_true_exists {A} (l : list A) :
  sql_is_true (sql_exists l) = true ↔ ∃ x, x ∈ l.
Proof.
  destruct l as [|x l]; simpl.
  - split; [done | intros [x Hx]; inversion Hx].
  - split; [|done]. intros _. exists x. apply list_elem_of_here.
Qed.

Lemma elem_of_my_memberships_in
    (auth_uid : option uuid) (o : option uuid) (s : db) (rm : room_member) :
  rm ∈ my_memberships_in auth_uid o s ↔
  rm ∈ room_members s ∧ o = Some (rm_room_id rm) ∧ auth_uid = Some (rm_user_id rm).
Proof.
  unfold my_memberships_in.
  rewrite list_elem_of_filter, Is_true_true, sql_is_true_and, andb_true_iff,
    !sql_is_true_eq. split.
  - intros [[(a & [= <-] & ->) (b & [= <-] & ->)] Hin]. done.
  - intros (Hin & -> & ->). split; [|done]. split; eauto.
Qed.

Lemma elem_of_public_rooms_with_id (o : option uuid) (s : db) (x : room) :
  x ∈ public_rooms_with_id o s ↔
  x ∈ rooms s ∧ o = Some (room_id x) ∧ room_is_private x = Some false.
Proof.
  unfold public_rooms_with_id.
  rewrite list_elem_of_filter, Is_true_true, sql_is_true_and, andb_true_iff,
    (sql_is_true_eq (Some (room_id x))), (sql_is_true_eq (room_is_private x)). split.
  - intros [[(a & [= <-] & ->) (b & Hb & [= <-])] Hin]. done.
  - intros (Hin & -> & ->). split; [|done]. split; eauto.
Qed.

Lemma rebuilt_room_condition (auth_uid : option uuid) (o : option uuid) (s : db) :
  sql_is_true (sql_or (sql_exists (public_rooms_with_id o s))
                      (sql_exists (my_memberships_in auth_uid o s))) =
  sql_is_true (sql_in o (sql_union (public_room_ids s) (my_room_ids auth_uid s))).
Proof.
  apply eq_true_iff_eq.
  rewrite sql_is_true_or, orb_true_iff, !sql_is_true_exists, room_id_in_my_rooms.
  setoid_rewrite elem_of_public_rooms_with_id.
  setoid_rewrite elem_of_my_memberships_in. split.
  - intros [(x & Hx & -> & Hpub) | (rm & Hrm & -> & ->)].
    + exists (room_id x). split; [done|]. left. eauto.
    + exists (rm_room_id rm). split; [done|]. right.
      exists (rm_user_id rm). split; [done|]. by exists rm.
  - intros (r & -> & [(x & Hx & <- & Hpub) | (u & -> & rm & Hrm & <- & <-)]).
    + left. eauto.
    + right. eauto.
Qed.

(** X13. The policies on [messages] of [reset_and_rebuild_fixed.sql],
    written with EXISTS, accept exactly the rows the policies of the
    migration, written with IN and UNION, accept: for reading and for
    inserting, for every caller, row and database. *)
Theorem rebuilt_messages_policies_agree
    (auth_uid : option uuid) (s : db) (m : message) :
  rebuilt_messages_select_policy auth_uid s m = messages_select_policy auth_uid s m ∧
  rebuilt_messages_insert_policy auth_uid s m = messages_insert_policy auth_uid s m.
Proof.
  split.
  - apply rebuilt_room_condition.
  - unfold rebuilt_messages_insert_policy, messages_insert_policy.
    rewrite !sql_is_true_and. f_equal. apply rebuilt_room_condition.
Qed.

(** X14. The two SELECT policies on [rooms] of
    [reset_and_rebuild_fixed.sql] return a room exactly when the two of
    the migration do. *)
Theorem rebuilt_rooms_policy_agrees (auth_uid : option uuid) (s : db) (r : room) :
  rebuilt_rooms_select_policy auth_uid s r = rooms_select_policy auth_uid s r.
Proof.
  apply eq_true_iff_eq. rewrite rooms_select_policy_true.
  unfold rebuilt_rooms_select_policy.
  rewrite sql_is_true_or, orb_true_iff, sql_is_true_eq, sql_is_true_exists.
  setoid_rewrite elem_of_my_memberships_in. split.
  - intros [(b & Hb & [= <-]) | (rm & Hrm & [= Hr] & ->)]; [by left|].
    right. exists (rm_user_id rm). split; [done|]. by exists rm.
  - intros [Hpub | (u & -> & rm & Hrm & Hr & <-)]; [left; eauto|].
    right. exists rm. by rewrite Hr.
Qed.

(** ** The rebuilt function *)

Lemma rebuilt_lookup_condition {A} (l1 l2 : list A) (n : nat) :
  sql_is_true (sql_and (sql_and (sql_exists l1) (sql_exists l2))
                       (Some (bool_decide (n = 2)))) ↔
  l1 ≠ [] ∧ l2 ≠ [] ∧ n = 2.
Proof.
  rewrite Is_true_true.
  destruct l1, l2; case_bool_decide; simpl; split; try done; by intros (? & ? & ?).
Qed.

Lemma not_nil_elem_of {A} (l : list A) : l ≠ [] ↔ ∃ x, x ∈ l.
Proof.
  destruct l as [|x l]; split; try done.
  - intros [x Hx]. inversion Hx.
  - intros _. exists x. apply list_elem_of_here.
Qed.

(** The two lookups keep the same conversations. *)
Lemma elem_of_rebuilt_existing_conversations (u1 u2 x : uuid) (s : db) :
  x ∈ rebuilt_existing_conversations u1 u2 s ↔ x ∈ existing_conversations u1 u2 s.
Proof.
  rewrite elem_of_existing_conversations. unfold rebuilt_existing_conversations.
  rewrite list_elem_of_fmap. setoid_rewrite list_elem_of_filter.
  setoid_rewrite rebuilt_lookup_condition.
  split.
  - intros (c & -> & (Hf1 & Hf2 & Hcount) & Hc).
    apply not_nil_elem_of in Hf1 as (p1 & [[Hc1 Hu1] Hp1]%list_elem_of_filter).
    apply not_nil_elem_of in Hf2 as (p2 & [[Hc2 Hu2] Hp2]%list_elem_of_filter).
    split; [by apply list_elem_of_fmap_2|]. eauto 10.
  - intros ((c & -> & Hc)%list_elem_of_fmap_1 &
            (p1 & [Hp1 Hc1] & Hu1) & (p2 & [Hp2 Hc2] & Hu2) & Hcount).
    exists c. split; [done|]. split; [|done].
    split; [|split; [|done]]; apply not_nil_elem_of; [exists p1 | exists p2];
      by apply list_elem_of_filter.
Qed.

(** Two lookups with the same rows can be made to return the same. *)
Lemma select_into_same_rows {A} (n : nat) (rows rows' : list A) :
  (∀ x, x ∈ rows ↔ x ∈ rows') → ∃ n', select_into n' rows' = select_into n rows.
Proof.
  intros Hrows. destruct (select_into n rows) as [x|] eqn:Hsel.
  - apply select_into_any, Hrows. by apply (select_into_Some n).
  - exists 0. apply select_into_None. apply select_into_None in Hsel as ->.
    destruct rows' as [|y rows']; [done|].
    exfalso. eapply not_elem_of_nil, Hrows, list_elem_of_here.
Qed.

(** X15. The function of [reset_and_rebuild_fixed.sql] tests the two
    participant rows with EXISTS instead of joining them.  Its lookup
    keeps the same conversations as the one of the migration; so whatever
    one of the two functions does for some row its executor produces
    first, the other does for some row too, and when the lookup keeps at
    most one conversation, as it does for two different users with at
    most one conversation of the two of them, both functions give the
    same result and the same database, whichever rows come first. *)
Theorem rebuilt_function_agrees (u1 u2 : uuid) (d : defaults) (s : db) :
  (∀ c, c ∈ rebuilt_existing_conversations u1 u2 s ↔
        c ∈ existing_conversations u1 u2 s) ∧
  (∃ n, find_or_create_conversation u1 u2 (with_first_row n d) s =
        rebuilt_find_or_create_conversation u1 u2 d s) ∧
  (∃ n, rebuilt_find_or_create_conversation u1 u2 (with_first_row n d) s =
        find_or_create_conversation u1 u2 d s) ∧
  (u1 ≠ u2 → at_most_one_pair_conversation u1 u2 s →
   ∀ n, rebuilt_find_or_create_conversation u1 u2 (with_first_row n d) s =
        find_or_create_conversation u1 u2 d s).
Proof.
  pose proof (elem_of_rebuilt_existing_conversations u1 u2) as Hrows.
  assert (Hrun : ∀ n n' rows rows',
            select_into n' rows' = select_into n rows →
            (existing_conversation_id ←$ pg_query (λ _ : db, select_into n' rows');
             match existing_conversation_id with
             | Some c => pg_ret c
             | None => create_conversation u1 u2 (with_first_row n' d)
             end) s =
            (existing_conversation_id ←$ pg_query (λ _ : db, select_into n rows);
             match existing_conversation_id with
             | Some c => pg_ret c
             | None => create_conversation u1 u2 d
             end) s).
  { intros n n' rows rows' Heq. unfold pg_bind, pg_query. by rewrite Heq. }
  split; [intros c; apply Hrows|]. split; [|split].
  - destruct (select_into_same_rows (first_row d)
                (rebuilt_existing_conversations u1 u2 s) (existing_conversations u1 u2 s))
      as [n Hn]; [intros x; apply Hrows|].
    exists n. by apply (Hrun (first_row d) n).
  - destruct (select_into_same_rows (first_row d)
                (existing_conversations u1 u2 s) (rebuilt_existing_conversations u1 u2 s))
      as [n Hn]; [intros x; symmetry; apply Hrows|].
    exists n. by apply (Hrun (first_row d) n).
  - intros Hne Hone n. apply (Hrun (first_row d) n).
    destruct (select_into (first_row d) (existing_conversations u1 u2 s)) as [c|] eqn:Hsel.
    + pose proof (select_into_Some _ _ _ Hsel) as Hc.
      apply select_into_unique; [by apply Hrows|].
      intros y Hy%Hrows. by apply (lookup_choice_irrelevant u1 u2 y c s).
    + apply select_into_None in Hsel. apply select_into_None.
      destruct (rebuilt_existing_conversations u1 u2 s) as [|y l] eqn:Hl; [done|].
      exfalso. eapply not_elem_of_nil. rewrite <- Hsel, <- Hrows, Hl.
      apply list_elem_of_here.
Qed.

(** * Further properties of the client half *)

(** ** Substrings *)

Lemma prefix_append (sub post : string) : String.prefix sub (sub +:+ post) = true.
Proof.
  induction sub as [|a sub IH]; simpl; [by destruct post|].
  destruct (Ascii.ascii_dec a a) as [_ | Hne]; [done | by destruct Hne].
Qed.

Lemma prefix_split (sub s : string) :
  String.prefix sub s = true → ∃ post, s = sub +:+ post.
Proof.
  revert s. induction sub as [|a sub IH]; intros s.
  - intros _. by exists s.
  - destruct s as [|b s]; simpl; [done|].
    destruct (Ascii.ascii_dec a b) as [<- | ?]; [|done].
    intros (post & ->)%IH. by exists post.
Qed.

(** [s.includes(sub)] holds exactly when [sub] occurs in [s]. *)
Lemma includes_occurs (s sub : string) :
  includes s sub = true ↔ ∃ pre post, s = pre +:+ sub +:+ post.
Proof.
  split.
  - induction s as [|a s IH]; cbn [includes]; rewrite orb_true_iff.
    + intros [(post & Hs)%prefix_split | ?]; [|done]. by exists "", post.
    + intros [(post & ->)%prefix_split | (pre & post & ->)%IH].
      * by exists "", post.
      * by exists (String a pre), post.
  - intros (pre & post & ->). induction pre as [|a pre IH].
    + change ("" +:+ sub +:+ post) with (sub +:+ post).
      destruct (sub +:+ post) eqn:Hs; cbn [includes]; rewrite <- Hs;
        by rewrite prefix_append.
    + change (String a pre +:+ sub +:+ post) with (String a (pre +:+ sub +:+ post)).
      cbn [includes]. by rewrite IH, orb_true_r.
Qed.

Lemma append_eq_empty (s t : string) : s +:+ t = "" → s = "" ∧ t = "".
Proof. by destruct s. Qed.

Lemma append_eq_self (s t : string) : s +:+ t = s → t = "".
Proof. induction s as [|a s IH]; simpl; [done|]. intros [= H]. auto. Qed.

(** ** Which errors show which message *)

Lemma isRecursionError_true (error : value) :
  isRecursionError error = true ↔
  ∃ props m, error = Obj props ∧ props !! "message" = Some (Str m) ∧
             includes m "infinite recursion" = true.
Proof.
  destruct error as [| | | | |props];
    try (split; [done | by intros (? & ? & ? & _)]).
  unfold isRecursionError, has, get. simpl.
  destruct (props !! "message") as [[| | | |m|]|] eqn:Hmsg; simpl;
    try (split; [done | intros (? & ? & [= <-] & Hm & _); by rewrite Hmsg in Hm]).
  split.
  - intros ?. eauto.
  - intros (? & m' & [= <-] & Hm & ?). rewrite Hmsg in Hm. by simplify_eq.
Qed.

(** X16. [createErrorWithHelp] returns the message of
    [handleDatabaseError] unchanged exactly when the error is neither a
    table-not-found nor a recursion error; a recursion error that is not
    a table-not-found error gets the sentence about the
    fix-recursive-policy script appended; and the recursion test holds
    exactly for objects whose string message contains 'infinite
    recursion'. *)
Theorem help_is_appended (error : value) :
  (createErrorWithHelp error = handleDatabaseError error ↔
   isTableNotFoundError error = false ∧ isRecursionError error = false) ∧
  (isTableNotFoundError error = false → isRecursionError error = true →
   createErrorWithHelp error = handleDatabaseError error +:+ recursion_help) ∧
  (isRecursionError error = true ↔
   ∃ props m, error = Obj props ∧ props !! "message" = Some (Str m) ∧
              ∃ pre post, m = pre +:+ "infinite recursion" +:+ post).
Proof.
  split; [|split].
  - unfold createErrorWithHelp.
    destruct (isTableNotFoundError error), (isRecursionError error); split;
      try done; try (by intros [??]); by intros ?%append_eq_self.
  - unfold createErrorWithHelp. by intros -> ->.
  - rewrite isRecursionError_true. by setoid_rewrite includes_occurs.
Qed.

(** The message PostgreSQL sends for a self-referencing policy, without
    code. *)
Lemma help_is_appended_witness :
  createErrorWithHelp
    (Obj {[ "message" := Str "infinite recursion detected in policy for relation rooms" ]}) =
  handleDatabaseError
    (Obj {[ "message" := Str "infinite recursion detected in policy for relation rooms" ]})
  +:+ recursion_help.
Proof. by apply help_is_appended. Defined.

(** X17. For the codes with a fixed message, what [handleDatabaseError]
    returns is determined by the code: the error's message and details do
    not show in it. *)
Theorem fixed_messages_hide_details (props props' : gmap string value) (c m m' : string) :
  c ∈ fixed_message_codes →
  props !! "code" = Some (Str c) → props !! "message" = Some (Str m) →
  props' !! "code" = Some (Str c) → props' !! "message" = Some (Str m') →
  handleDatabaseError (Obj props) = handleDatabaseError (Obj props').
Proof.
  intros Hc Hcode Hmsg Hcode' Hmsg'.
  unfold handleDatabaseError, has, get. simpl.
  rewrite Hcode, Hmsg, Hcode', Hmsg'. simpl.
  unfold fixed_message_codes in Hc.
  repeat (apply elem_of_cons in Hc as [-> | Hc]; [done|]). inversion Hc.
Qed.

(** Two unique violations with different messages and details. *)
Lemma fixed_messages_hide_details_witness :
  handleDatabaseError
    (Obj (<[ "code" := Str "23505" ]>
          (<[ "details" := Str "Key (id)=(7) already exists." ]>
           {[ "message" := Str "duplicate key value violates unique constraint" ]}))) =
  handleDatabaseError
    (Obj (<[ "code" := Str "23505" ]> {[ "message" := Str "other" ]})).
Proof.
  by apply (fixed_messages_hide_details _ _ "23505"
              "duplicate key value violates unique constraint" "other");
    [apply list_elem_of_further, list_elem_of_here | ..].
Defined.

(** X18. The text [createErrorWithHelp] produces is empty, so that the
    component shows no error at all, exactly for an object without [code]
    whose [message] is the empty string. *)
Theorem empty_error_text (error : value) :
  createErrorWithHelp error = "" ↔
  ∃ props, error = Obj props ∧ props !! "code" = None ∧
           props !! "message" = Some (Str "").
Proof.
  split.
  - unfold createErrorWithHelp.
    destruct (isTableNotFoundError error);
      [by intros [_ [=]]%append_eq_empty|].
    destruct (isRecursionError error);
      [by intros [_ [=]]%append_eq_empty|].
    apply handleDatabaseError_empty.
  - intros (props & -> & Hcode & Hmsg).
    unfold createErrorWithHelp, isTableNotFoundError, isRecursionError,
      handleDatabaseError, has, get. simpl. by rewrite Hcode, Hmsg.
Qed.

(** ** Rooms without description and contacts without name *)

Section more_validation_facts.
Variable is_uuid : string → bool.
Variable now_iso : string.

Lemma or_else_string (s : string) (d : value) : s ≠ "" → or_else (Str s) d = Str s.
Proof.
  intros Hs. unfold or_else. simpl.
  destruct (String.eqb_spec s ""); [done|]. done.
Qed.

(** X19. A room row whose [description] is [null], as the database
    returns it for a room created without description, never passes
    [RoomSchema]; the fallback keeps its id, name, privacy flag and
    creation time and gives it the empty description, dropping every
    other column. *)
Theorem room_without_description
    (props : gmap string value) (i n t : string) (b : bool) :
  props !! "id" = Some (Str i) → i ≠ "" →
  props !! "name" = Some (Str n) → n ≠ "" →
  props !! "description" = Some Null →
  props !! "is_private" = Some (Bool b) →
  props !! "created_at" = Some (Str t) → t ≠ "" →
  RoomSchema_parse is_uuid (Obj props) = None ∧
  validate_room is_uuid now_iso (Obj props) =
    Some (Obj (list_to_map
      [ ("id", Str i); ("name", Str n); ("description", Str "");
        ("is_private", Bool b); ("created_at", Str t) ])).
Proof.
  intros Hid Hi Hname Hn Hdesc Hpriv Hcreated Ht.
  assert (Hparse : RoomSchema_parse is_uuid (Obj props) = None).
  { unfold RoomSchema_parse, z_field. rewrite Hid, Hname, Hdesc. simpl.
    by destruct (is_uuid i). }
  split; [done|]. unfold validate_room. rewrite Hparse.
  unfold room_defaults, get. rewrite Hid, Hname, Hdesc, Hpriv, Hcreated. simpl.
  rewrite !or_else_string by done. by destruct b.
Qed.

End more_validation_facts.

(** The room "Staff" of [db_chat] as the query returns it. *)
Lemma room_without_description_witness :
  validate_room lenient "2024-01-02T00:00:00Z"
    (Obj (list_to_map
       [ ("id", Str "11"); ("name", Str "Staff"); ("description", Null);
         ("created_by", Str "1"); ("is_private", Bool true);
         ("created_at", Str "2024-01-01T00:00:00Z") ])) =
  Some (Obj (list_to_map
     [ ("id", Str "11"); ("name", Str "Staff"); ("description", Str "");
       ("is_private", Bool true); ("created_at", Str "2024-01-01T00:00:00Z") ])).
Proof.
  by apply (room_without_description lenient "2024-01-02T00:00:00Z" _
              "11" "Staff" "2024-01-01T00:00:00Z" true).
Defined.

(** X20. The name shown for the other user of a conversation is never
    empty: it is 'Unknown User' or the [username] of the profile, a
    non-empty string; and it is that username whenever the profile is an
    object without [id] whose [username] is a non-empty string. *)
Theorem contact_email_shown (is_uuid : string → bool) (profileData : value) :
  contact_email is_uuid profileData ≠ "" ∧
  (contact_email is_uuid profileData = "Unknown User" ∨
   ∃ props u, profileData = Obj props ∧ props !! "username" = Some (Str u) ∧
              u ≠ "" ∧ contact_email is_uuid profileData = u) ∧
  (∀ props u, profileData = Obj props → props !! "id" = None →
              props !! "username" = Some (Str u) → u ≠ "" →
              contact_email is_uuid profileData = u).
Proof.
  assert (Hcases :
    contact_email is_uuid profileData = "Unknown User" ∨
    ∃ props u, profileData = Obj props ∧ props !! "username" = Some (Str u) ∧
               u ≠ "" ∧ contact_email is_uuid profileData = u).
  { destruct profileData as [| | | | |props];
      try (left; unfold contact_email; simpl; first [done | by case_match]).
    unfold contact_email, ProfileSchema_parse, z_field. simpl.
    destruct (z_optional (z_string is_uuid) (default Undefined (props !! "id")))
      as [vid|]; simpl; [|by left].
    destruct (props !! "username") as [[| | | |u|]|] eqn:Hu; simpl; try (by left);
      rewrite ?lookup_insert_eq; simpl; try (by left).
    - destruct (String.eqb_spec u "") as [-> | Hne]; simpl; [by left|].
      right. by exists props, u.
    - left. by destruct vid, (props !! "id"); simplify_map_eq. }
  split; [|split; [done|]].
  - destruct Hcases as [-> | (props & u & _ & _ & Hu & ->)]; done.
  - intros props u -> Hid Huser Hu.
    unfold contact_email, ProfileSchema_parse, z_field. simpl.
    rewrite Hid, Huser. simpl. unfold get. rewrite lookup_insert_eq. simpl.
    by destruct (String.eqb_spec u "").
Qed.

(** The profile query selects the username alone. *)
Lemma contact_email_shown_witness :
  contact_email lenient (Obj {[ "username" := Str "ada@example.com" ]}) =
  "ada@example.com".
Proof.
  by apply (proj2 (proj2 (contact_email_shown lenient
                            (Obj {[ "username" := Str "ada@example.com" ]})))
              {[ "username" := Str "ada@example.com" ]} "ada@example.com").
Defined.
